(** * Railway risk / capacity / arbitration core: a shallow embedding

    The development follows the Python sources module by module:

    - [Station]      station_params.py
    - [TrackRisk]    computeTrackParameters.py, on top of [SHA256] for
                     [hashlib.sha256]
    - [Kinematics]   computeTrainParameters.py
    - [Geodesy], [Arbitration]   extreme_ai_server.py
    - [Segmenter]    track_segmenter.py

    [PyQ] and [PyR] hold the Python built-ins ([min], [max], [abs], dict
    access, comparison) the sources use, [TestData] the inputs of the
    repository's test scripts. The definitions come first; the properties
    follow from the heading "Properties" on.

    Number model.  Python floats are idealised as exact numbers: rationals
    ([Q]) in the modules whose arithmetic is rational, so that every
    definition there runs, and Stdlib reals ([R]) in the modules that go
    through the haversine formula (sin, cos, asin, sqrt).  Rounding,
    overflow and NaN are outside this model; the only non-finite value the
    sources build on purpose, [float('inf')], is kept as a constructor of
    [pyfloat].  JSON integers and floats are not distinguished. *)

From Stdlib Require Import ZArith QArith Qround Qminmax Qpower Reals Zfloor Psatz.
From Stdlib Require Import String Ascii List.
From stdpp Require Import base functions gmap strings pretty list fin_maps.

Local Open Scope Z_scope.

(** ** Python run-time errors and values *)

Inductive exn := KeyError | TypeError | ZeroDivisionError.

Inductive result (A : Type) :=
| Ok (a : A)
| Raise (e : exn).
Arguments Ok {A} a.
Arguments Raise {A} e.

Definition rbind {A B} (m : result A) (k : A -> result B) : result B :=
  match m with
  | Ok a => k a
  | Raise e => Raise e
  end.

Declare Scope py_scope.
Delimit Scope py_scope with py.
Notation "x <- m ;; k" := (rbind m (fun x => k))
  (at level 100, m at next level, right associativity) : py_scope.

(** A JSON value as the functions below use it: a number, a string or
    null.  [num] is [Q] or [R] depending on the module. *)
Inductive value (num : Type) :=
| VNum (x : num)
| VStr (s : string)
| VNone.
Arguments VNum {num} x.
Arguments VStr {num} s.
Arguments VNone {num}.

(** ** station_params.py *)

Module Station.
Local Open Scope Q_scope.

(** A Python float: a finite number, or one of the non-finite values. *)
Inductive pyfloat :=
| Fin (q : Q)
| PInf
| NInf
| NaN.

(** [x * n] for a float [x] and a finite number [n]. *)
Definition fmul_fin (x : pyfloat) (n : Q) : pyfloat :=
  match x with
  | Fin q => Fin (q * n)
  | PInf => if Qlt_le_dec 0 n then PInf else if Qlt_le_dec n 0 then NInf else NaN
  | NInf => if Qlt_le_dec 0 n then NInf else if Qlt_le_dec n 0 then PInf else NaN
  | NaN => NaN
  end.

Definition G : Q := 9.81.

Definition kmh_to_mps (v_kmh : Q) : Q := v_kmh / 3.6.

Definition braking_distance (v_kmh mu : Q) : Q :=
  let v := kmh_to_mps v_kmh in
  let mu := if Qle_bool mu 0 then 0.25 else mu in
  (v * v) / (2.0 * mu * G).

Definition reaction_distance (v_kmh reaction_time_s : Q) : Q :=
  let v := kmh_to_mps v_kmh in
  v * reaction_time_s.

Definition total_stopping_distance (v_kmh mu reaction_time_s margin_factor : Q) : Q :=
  let d_brake := braking_distance v_kmh mu in
  let d_react := reaction_distance v_kmh reaction_time_s in
  (d_brake + d_react) * margin_factor.

Definition platform_utilization (arrival_rate_per_hr avg_dwell_s : Q) : Q :=
  (arrival_rate_per_hr * avg_dwell_s) / 3600.0.

Definition max_simultaneous_trains (station_length_m avg_train_length_m : Q) : Z :=
  if Qle_bool avg_train_length_m 0 then 0%Z
  else Qfloor (station_length_m / avg_train_length_m).

Definition capacity_per_platform (avg_dwell_s buffer_s : Q) : pyfloat :=
  let denom := avg_dwell_s + buffer_s in
  if Qle_bool denom 0 then PInf
  else Fin (3600.0 / denom).

Definition station_capacity (num_platforms : Z) (avg_dwell_s buffer_s : Q) : pyfloat :=
  fmul_fin (capacity_per_platform avg_dwell_s buffer_s)
           (inject_Z (Z.max 1 num_platforms)).

Definition risk_index_from_utilization (overall_utilization cv : Q) : Q :=
  (overall_utilization ^ 2) * (1.0 + cv * cv).

Record station_parameters := {
  sp_station_length_m : Q;
  sp_platform_length_m : Q;
  sp_num_platforms : Z;
  sp_avg_train_length_m : Q;
  sp_arrival_rate_per_hr : Q;
  sp_avg_dwell_s : Q;
  sp_avg_approach_speed_kmh : Q;
  sp_adhesion_mu : Q;
  sp_reaction_time_s : Q;
  sp_safety_buffer_s : Q;
  sp_max_simultaneous_trains : Z;
  sp_platform_utilization_single : Q;
  sp_platform_utilization_overall : Q;
  sp_braking_distance_m : Q;
  sp_reaction_distance_m : Q;
  sp_total_stopping_distance_m : Q;
  sp_station_capacity_trains_per_hr : pyfloat;
  sp_min_clearance_time_s : Q;
  sp_conflict_risk_index : Q
}.

Definition compute_station_parameters
    (station_length_m platform_length_m : Q) (num_platforms : Z)
    (avg_train_length_m arrival_rate_per_hr avg_dwell_s avg_approach_speed_kmh
     adhesion_mu reaction_time_s safety_buffer_s cv_interarrival margin_factor : Q)
    : station_parameters :=
  let max_trains := max_simultaneous_trains station_length_m avg_train_length_m in
  let util_single := platform_utilization arrival_rate_per_hr avg_dwell_s in
  let overall_util := util_single / inject_Z (Z.max 1 num_platforms) in
  let brake_m := braking_distance avg_approach_speed_kmh adhesion_mu in
  let react_m := reaction_distance avg_approach_speed_kmh reaction_time_s in
  let stop_m := (brake_m + react_m) * margin_factor in
  let cap := station_capacity num_platforms avg_dwell_s safety_buffer_s in
  let min_clearance_s := avg_dwell_s + safety_buffer_s in
  let risk := risk_index_from_utilization overall_util cv_interarrival in
  {| sp_station_length_m := station_length_m;
     sp_platform_length_m := platform_length_m;
     sp_num_platforms := num_platforms;
     sp_avg_train_length_m := avg_train_length_m;
     sp_arrival_rate_per_hr := arrival_rate_per_hr;
     sp_avg_dwell_s := avg_dwell_s;
     sp_avg_approach_speed_kmh := avg_approach_speed_kmh;
     sp_adhesion_mu := adhesion_mu;
     sp_reaction_time_s := reaction_time_s;
     sp_safety_buffer_s := safety_buffer_s;
     sp_max_simultaneous_trains := max_trains;
     sp_platform_utilization_single := util_single;
     sp_platform_utilization_overall := overall_util;
     sp_braking_distance_m := brake_m;
     sp_reaction_distance_m := react_m;
     sp_total_stopping_distance_m := stop_m;
     sp_station_capacity_trains_per_hr := cap;
     sp_min_clearance_time_s := min_clearance_s;
     sp_conflict_risk_index := risk |}.

End Station.

(** ** Python built-ins on rationals *)

Module PyQ.
Local Open Scope Q_scope.

Definition Qltb (a b : Q) : bool := negb (Qle_bool b a).

(** [min(a, b)] keeps its first argument unless the second is strictly
    smaller; [max(a, b)] unless the second is strictly larger. *)
Definition py_min (a b : Q) : Q := if Qltb b a then b else a.
Definition py_max (a b : Q) : Q := if Qltb a b then b else a.

Definition py_abs (a : Q) : Q := if Qltb a 0 then - a else a.

(** [x % 1.0] *)
Definition py_mod1 (x : Q) : Q := x - inject_Z (Qfloor x).

Definition value_eqb (a b : value Q) : bool :=
  match a, b with
  | VNum x, VNum y => Qeq_bool x y
  | VStr s, VStr t => String.eqb s t
  | VNone, VNone => true
  | _, _ => false
  end.

End PyQ.

(** ** hashlib.sha256 (FIPS 180-4), on 32-bit words held in [Z] *)

Module SHA256.

Definition w32 (x : Z) : Z := x mod 2 ^ 32.
Definition add32 (x y : Z) : Z := w32 (x + y).
Definition rotr (n x : Z) : Z := Z.lor (Z.shiftr x n) (w32 (Z.shiftl x (32 - n))).
Definition not32 (x : Z) : Z := Z.lxor x 0xFFFFFFFF.

Definition Ch (x y z : Z) : Z := Z.lxor (Z.land x y) (Z.land (not32 x) z).
Definition Maj (x y z : Z) : Z :=
  Z.lxor (Z.lxor (Z.land x y) (Z.land x z)) (Z.land y z).
Definition bsig0 (x : Z) : Z := Z.lxor (Z.lxor (rotr 2 x) (rotr 13 x)) (rotr 22 x).
Definition bsig1 (x : Z) : Z := Z.lxor (Z.lxor (rotr 6 x) (rotr 11 x)) (rotr 25 x).
Definition ssig0 (x : Z) : Z := Z.lxor (Z.lxor (rotr 7 x) (rotr 18 x)) (Z.shiftr x 3).
Definition ssig1 (x : Z) : Z := Z.lxor (Z.lxor (rotr 17 x) (rotr 19 x)) (Z.shiftr x 10).

(** The first 64 primes. *)
Definition is_prime (n : nat) : bool :=
  forallb (fun d => negb (Nat.eqb (n mod d) 0)) (seq 2 (n - 2)).

Definition primes : list Z :=
  map Z.of_nat (firstn 64 (filter is_prime (seq 2 400))).

(** Integer cube root, one bit at a time from bit [b - 1] down. *)
Fixpoint icbrt_bits (b : nat) (n r : Z) : Z :=
  match b with
  | O => r
  | S b' =>
      let r' := r + 2 ^ Z.of_nat b' in
      icbrt_bits b' n (if r' * r' * r' <=? n then r' else r)
  end.

Definition icbrt (n : Z) : Z := icbrt_bits 40 n 0.

(** Round constants: the first 32 bits of the fractional parts of the
    cube roots of the primes. *)
Definition K : list Z := map (fun p => w32 (icbrt (p * 2 ^ 96))) primes.

(** Initial hash value: the same for the square roots of the first eight
    primes. *)
Definition H0 : list Z := map (fun p => w32 (Z.sqrt (p * 2 ^ 64))) (firstn 8 primes).

(** Big-endian bytes of [x], [n] of them. *)
Fixpoint be_bytes (n : nat) (x : Z) : list Z :=
  match n with
  | O => []
  | S n' => be_bytes n' (Z.shiftr x 8) ++ [x mod 256]
  end.

Definition from_be_bytes (bs : list Z) : Z :=
  fold_left (fun acc b => acc * 256 + b) bs 0.

(** Message padding: 0x80, zeros up to 56 mod 64, then the bit length on
    eight bytes. *)
Definition pad (msg : list Z) : list Z :=
  let len := Z.of_nat (length msg) in
  let zeros := Z.to_nat ((55 - len) mod 64) in
  msg ++ [0x80] ++ repeat 0 zeros ++ be_bytes 8 (8 * len).

Fixpoint words_of_bytes (fuel : nat) (bs : list Z) : list Z :=
  match fuel, bs with
  | S fuel', b0 :: b1 :: b2 :: b3 :: rest =>
      from_be_bytes [b0; b1; b2; b3] :: words_of_bytes fuel' rest
  | _, _ => []
  end.

Fixpoint blocks_of_words (fuel : nat) (ws : list Z) : list (list Z) :=
  match fuel with
  | O => []
  | S fuel' =>
      match ws with
      | [] => []
      | _ => firstn 16 ws :: blocks_of_words fuel' (skipn 16 ws)
      end
  end.

(** Message schedule: extend the 16 block words to 64. *)
Fixpoint schedule (n : nat) (w : list Z) : list Z :=
  match n with
  | O => w
  | S n' =>
      let t := length w in
      let at_ k := nth (t - k) w 0 in
      schedule n' (w ++ [add32 (add32 (add32 (ssig1 (at_ 2%nat)) (at_ 7%nat))
                                      (ssig0 (at_ 15%nat))) (at_ 16%nat)])
  end.

Definition round (st : list Z) (kw : Z * Z) : list Z :=
  match st with
  | [a; b; c; d; e; f; g; h] =>
      let t1 := add32 (add32 (add32 (add32 h (bsig1 e)) (Ch e f g)) (fst kw)) (snd kw) in
      let t2 := add32 (bsig0 a) (Maj a b c) in
      [add32 t1 t2; a; b; c; add32 d t1; e; f; g]
  | _ => st
  end.

Definition compress (h : list Z) (block : list Z) : list Z :=
  let w := schedule 48 block in
  let st := fold_left round (combine K w) h in
  map (fun p => add32 (fst p) (snd p)) (combine h st).

Definition bytes_of_string (s : string) : list Z :=
  map (fun c => Z.of_N (N_of_ascii c)) (list_ascii_of_string s).

(** The 32 digest bytes of a byte string. *)
Definition digest (msg : list Z) : list Z :=
  let bs := pad msg in
  let ws := words_of_bytes (length bs) bs in
  let hs := fold_left compress (blocks_of_words (length ws) ws) H0 in
  concat (map (be_bytes 4) hs).

End SHA256.

(** ** computeTrackParameters.py *)

Module TrackRisk.
Import PyQ.
Local Open Scope Q_scope.

Abbreviation dict := (gmap string (value Q)).

(** An edge [{source, target}] with string station identifiers. *)
Abbreviation edge := (gmap string string).

Definition _seed_from_str (s : string) : Z :=
  let h := SHA256.digest (SHA256.bytes_of_string s) in
  SHA256.from_be_bytes (firstn 8 h).

Definition _rand_from_seed_int (seed_int : Z) : Q :=
  inject_Z (seed_int mod 1000003) / 1000003.0.

Definition _clamp (v lo hi : Q) : Q := py_max lo (py_min hi v).

(** [_clamp(v)] with the default bounds. *)
Definition _clamp01 (v : Q) : Q := _clamp v 0.0 1.0.

Definition _normalize_speed_kmh (v max_kmh : Q) : Q := _clamp01 (v / max_kmh).

(** [(seed >> k) % m] as a number. *)
Definition bits (seed : Z) (k m : Z) : Q := inject_Z (Z.shiftr seed k mod m).

Record edge_metrics := {
  edge_id : string;
  distance_km : Q;
  track_condition : Q;
  curve_severity : Q;
  gradient_index : Q;
  track_age : Q;
  switch_count_norm : Q;
  max_allowed_speed_kmh : Q;
  drainage_risk : Q;
  ballast_condition : Q;
  embankment_susceptibility : Q;
  electrification_health : Q;
  switch_condition : Q
}.

Definition compute_edge_metrics (edge_id : string) (distance_km : Q) : edge_metrics :=
  let seed := _seed_from_str edge_id in
  let r := _rand_from_seed_int seed in
  let track_condition :=
    _clamp01 (0.2 * r + 0.3 * bits seed 7 100 / 100.0 + 0.1 * (distance_km / 10.0)) in
  let curve_severity := _clamp01 (0.1 * r + 0.6 * (bits seed 13 100 / 100.0)) in
  let gradient_index := _clamp01 (0.05 * r + 0.4 * (bits seed 19 100 / 100.0)) in
  let track_age := _clamp01 (0.2 * (bits seed 23 100 / 100.0) + 0.3 * r) in
  let switch_count_norm := _clamp01 (bits seed 29 5 / 5.0) in
  let base_max_speed := 200.0 - (curve_severity * 80.0) - (gradient_index * 40.0) in
  let base_max_speed := py_max 40.0 (base_max_speed - (track_condition * 40.0)) in
  let drainage_risk := _clamp01 (0.3 * (bits seed 17 100 / 100.0) + 0.4 * r) in
  let ballast_condition := _clamp01 (0.25 * (bits seed 11 100 / 100.0) + 0.5 * r) in
  let embankment_susceptibility := _clamp01 (0.2 * r + 0.6 * (bits seed 5 100 / 100.0)) in
  let electrification_health := _clamp01 (0.2 * r + 0.5 * (bits seed 3 100 / 100.0)) in
  let switch_condition := _clamp01 (0.2 * r + 0.6 * (bits seed 2 100 / 100.0)) in
  {| edge_id := edge_id;
     distance_km := distance_km;
     track_condition := track_condition;
     curve_severity := curve_severity;
     gradient_index := gradient_index;
     track_age := track_age;
     switch_count_norm := switch_count_norm;
     max_allowed_speed_kmh := base_max_speed;
     drainage_risk := drainage_risk;
     ballast_condition := ballast_condition;
     embankment_susceptibility := embankment_susceptibility;
     electrification_health := electrification_health;
     switch_condition := switch_condition |}.

(** The accumulators of the aggregation loop. *)
Record sums := {
  sum_track_condition : Q;
  sum_curve : Q;
  sum_grad : Q;
  sum_age : Q;
  sum_switch_density : Q;
  max_speed_seen : Q;
  sum_gauge_var : Q;
  sum_drainage : Q;
  sum_ballast : Q;
  sum_embank : Q;
  sum_signal_gap : Q;
  sum_switch_cond : Q;
  sum_electr_health : Q;
  sum_thermal_risk : Q;
  total_utilization_proxy : Q;
  sum_seg_len_km : Q;
  sum_maintenance_overdue : Q;
  sum_ballast_uniform : Q;
  sum_lateral_clearance : Q
}.

Definition sums0 : sums :=
  {| sum_track_condition := 0.0; sum_curve := 0.0; sum_grad := 0.0; sum_age := 0.0;
     sum_switch_density := 0.0; max_speed_seen := 0.0; sum_gauge_var := 0.0;
     sum_drainage := 0.0; sum_ballast := 0.0; sum_embank := 0.0; sum_signal_gap := 0.0;
     sum_switch_cond := 0.0; sum_electr_health := 0.0; sum_thermal_risk := 0.0;
     total_utilization_proxy := 0.0; sum_seg_len_km := 0.0;
     sum_maintenance_overdue := 0.0; sum_ballast_uniform := 0.0;
     sum_lateral_clearance := 0.0 |}.

(** [x["id"]] *)
Definition station_id (x : dict) : result (value Q) :=
  match x !! "id" with
  | Some v => Ok v
  | None => Raise KeyError
  end.

(** [set([s["id"] for s in stations[:5]])] *)
Fixpoint station_ids (stations : list dict) : result (list (value Q)) :=
  match stations with
  | [] => Ok []
  | s :: rest =>
      (i <- station_id s ;;
       ids <- station_ids rest ;;
       Ok (i :: ids))%py
  end.

(** [next((x for x in stations if x["id"] == key), None)] *)
Fixpoint find_station (stations : list dict) (key : value Q) : result (option dict) :=
  match stations with
  | [] => Ok None
  | x :: rest =>
      (i <- station_id x ;;
       if value_eqb i key then Ok (Some x) else find_station rest key)%py
  end.

(** [d[k]] used as a number. *)
Definition num_item (d : dict) (k : string) : result Q :=
  match d !! k with
  | Some (VNum x) => Ok x
  | Some _ => Raise TypeError
  | None => Raise KeyError
  end.

(** [e.get(k)] : the identifier, or [None]. *)
Definition edge_get (e : edge) (k : string) : value Q :=
  match e !! k with
  | Some s => VStr s
  | None => VNone
  end.

(** [str(v)] as an f-string prints an identifier. *)
Definition id_str (e : edge) (k : string) : string :=
  match e !! k with
  | Some s => s
  | None => "None"
  end.

Definition truthy (o : option dict) : bool :=
  match o with
  | Some d => negb (bool_decide (d = ∅))
  | None => false
  end.

Definition has_key (o : option dict) (k : string) : bool :=
  match o with
  | Some d => bool_decide (is_Some (d !! k))
  | None => false
  end.

Section Aggregator.

(** [math.hypot], from Python's library. *)
Variable hypot : Q -> Q -> Q.

(** The body of the [try] block: the planar distance estimate, or [None]
    when the guard fails and [distance_km] keeps its default. *)
Definition estimate_distance (stations : list dict) (src tgt : value Q)
    : result (option Q) :=
  (s <- find_station stations src ;;
   t <- find_station stations tgt ;;
   if truthy s && truthy t && has_key s "lat" && has_key t "lat" then
     match s, t with
     | Some s, Some t =>
         slat <- num_item s "lat" ;;
         tlat <- num_item t "lat" ;;
         let dlat := slat - tlat in
         slon <- num_item s "lon" ;;
         tlon <- num_item t "lon" ;;
         let dlon := slon - tlon in
         Ok (Some (py_max 0.1 (hypot dlat dlon * 111.0)))
     | _, _ => Ok None
     end
   else Ok None)%py.

(** [try: ... except Exception: distance_km = default_segment_km] *)
Definition edge_distance (stations : list dict) (src tgt : value Q)
    (default_segment_km : Q) : Q :=
  match estimate_distance stations src tgt with
  | Ok (Some d) => d
  | Ok None => default_segment_km
  | Raise _ => default_segment_km
  end.

Definition is_big (big_station_ids : list (value Q)) (v : value Q) : bool :=
  existsb (value_eqb v) big_station_ids.

(** One iteration of the loop over the edges. *)
Definition edge_step (stations : list dict) (big_station_ids : list (value Q))
    (default_segment_km : Q) (a : sums) (e : edge) : sums :=
  let src := edge_get e "source" in
  let tgt := edge_get e "target" in
  let edge_id := (id_str e "source" +:+ "-" +:+ id_str e "target")%string in
  let distance_km := edge_distance stations src tgt default_segment_km in
  let em := compute_edge_metrics edge_id distance_km in
  let seed := _seed_from_str edge_id in
  let gauge_var := bits seed 17 100 / 100.0 in
  {| sum_track_condition := sum_track_condition a + track_condition em;
     sum_curve := sum_curve a + curve_severity em;
     sum_grad := sum_grad a + gradient_index em;
     sum_age := sum_age a + track_age em;
     sum_switch_density :=
       sum_switch_density a + switch_count_norm em / py_max 1.0 distance_km;
     max_speed_seen := py_max (max_speed_seen a) (max_allowed_speed_kmh em);
     sum_gauge_var := sum_gauge_var a + gauge_var;
     sum_drainage := sum_drainage a + drainage_risk em;
     sum_ballast := sum_ballast a + ballast_condition em;
     sum_embank := sum_embank a + embankment_susceptibility em;
     sum_signal_gap :=
       if is_big big_station_ids src || is_big big_station_ids tgt
       then sum_signal_gap a + 0.2 * _rand_from_seed_int seed
       else sum_signal_gap a + 0.5 * _rand_from_seed_int seed;
     sum_switch_cond := sum_switch_cond a + switch_condition em;
     sum_electr_health := sum_electr_health a + electrification_health em;
     sum_thermal_risk := sum_thermal_risk a + 0.2 * _rand_from_seed_int seed;
     total_utilization_proxy :=
       total_utilization_proxy a +
       (if is_big big_station_ids src && is_big big_station_ids tgt then 2.0 else 1.0);
     sum_seg_len_km := sum_seg_len_km a + distance_km;
     sum_maintenance_overdue :=
       sum_maintenance_overdue a + track_age em * (0.3 + 0.7 * _rand_from_seed_int seed);
     sum_ballast_uniform := sum_ballast_uniform a + (1.0 - ballast_condition em);
     sum_lateral_clearance := sum_lateral_clearance a + (1.0 - curve_severity em) |}.

(** [{ f"p{21+i}": 0.0 for i in range(20) }] *)
Definition zero_parameters : gmap string Q :=
  list_to_map (map (fun i : nat => ("p" +:+ pretty (21 + i)%nat, 0.0)) (seq 0 20)).

Definition compute_track_parameters (stations : list dict) (edges : list edge)
    (default_segment_km : Q) : result (gmap string Q) :=
  match edges with
  | [] => Ok zero_parameters
  | _ =>
      let n_edges := inject_Z (Z.of_nat (length edges)) in
      (big_station_ids <- station_ids (firstn 5 stations) ;;
       let a := fold_left (edge_step stations big_station_ids default_segment_km)
                          edges sums0 in
       let avg_track_condition := _clamp01 (sum_track_condition a / n_edges) in
       let avg_curve := _clamp01 (sum_curve a / n_edges) in
       let avg_gradient := _clamp01 (sum_grad a / n_edges) in
       let avg_age := _clamp01 (sum_age a / n_edges) in
       let avg_switch_density := _clamp01 (sum_switch_density a / n_edges) in
       let p26_norm := _normalize_speed_kmh (max_speed_seen a) 200.0 in
       let avg_gauge_var := _clamp01 (sum_gauge_var a / n_edges) in
       let avg_drainage := _clamp01 (sum_drainage a / n_edges) in
       let avg_ballast := _clamp01 (sum_ballast a / n_edges) in
       let avg_embank := _clamp01 (sum_embank a / n_edges) in
       let avg_signal_gap := _clamp01 (sum_signal_gap a / n_edges) in
       let avg_switch_cond := _clamp01 (sum_switch_cond a / n_edges) in
       let avg_electr_health := _clamp01 (sum_electr_health a / n_edges) in
       let avg_thermal_risk := _clamp01 (sum_thermal_risk a / n_edges) in
       let track_utilization := _clamp01 (total_utilization_proxy a / (2.0 * n_edges)) in
       let avg_seg_len_km := _clamp01 (sum_seg_len_km a / (n_edges * 100.0)) in
       let maintenance_overdue := _clamp01 (sum_maintenance_overdue a / (n_edges * 1.0)) in
       let ballast_uniformity := _clamp01 (sum_ballast_uniform a / n_edges) in
       let lateral_clearance := _clamp01 (sum_lateral_clearance a / n_edges) in
       let aggregate_track_risk :=
         _clamp01 (0.20 * avg_track_condition
                   + 0.15 * avg_curve
                   + 0.10 * avg_gradient
                   + 0.10 * avg_age
                   + 0.10 * avg_drainage
                   + 0.10 * (1.0 - ballast_uniformity)
                   + 0.15 * maintenance_overdue) in
       Ok (list_to_map
             [ ("p21", avg_track_condition); ("p22", avg_curve); ("p23", avg_gradient);
               ("p24", avg_age); ("p25", _clamp01 avg_switch_density); ("p26", p26_norm);
               ("p27", avg_gauge_var); ("p28", avg_drainage); ("p29", avg_ballast);
               ("p30", avg_embank); ("p31", avg_signal_gap); ("p32", avg_switch_cond);
               ("p33", avg_electr_health); ("p34", avg_thermal_risk);
               ("p35", track_utilization); ("p36", avg_seg_len_km);
               ("p37", maintenance_overdue); ("p38", _clamp01 (1.0 - avg_ballast));
               ("p39", lateral_clearance); ("p40", aggregate_track_risk) ]))%py
  end.

End Aggregator.

(** The twenty keys of the result, [p21] .. [p40]. *)
Definition parameter_names : list string :=
  [ "p21"; "p22"; "p23"; "p24"; "p25"; "p26"; "p27"; "p28"; "p29"; "p30";
    "p31"; "p32"; "p33"; "p34"; "p35"; "p36"; "p37"; "p38"; "p39"; "p40" ].

End TrackRisk.

(** ** computeTrainParameters.py *)

Module Kinematics.
Import PyQ.
Local Open Scope Q_scope.

Abbreviation dict := (gmap string (value Q)).

(** Train snapshots are mutable objects: the list handed to
    [compute_train_parameters] holds references into a store. *)
Abbreviation loc := nat.
Abbreviation heap := (loc -> dict).

(** [t[k]] *)
Definition item (t : dict) (k : string) : result (value Q) :=
  match t !! k with
  | Some v => Ok v
  | None => Raise KeyError
  end.

(** [t.get(k, d)] for a value that the code goes on to use as a number. *)
Definition get_num (t : dict) (k : string) (d : Q) : result Q :=
  match t !! k with
  | None => Ok d
  | Some (VNum x) => Ok x
  | Some _ => Raise TypeError
  end.

(** [t.get(k, d)] *)
Definition get (t : dict) (k : string) (d : value Q) : value Q :=
  match t !! k with
  | Some v => v
  | None => d
  end.

(** [status_map.get(status, 0.2)] *)
Definition status_risk (status : value Q) : Q :=
  match status with
  | VStr "RUNNING" => 0.1
  | VStr "STOPPED" => 0.5
  | VStr "EMERGENCY" => 1.0
  | VStr "DELAYED" => 0.6
  | _ => 0.2
  end.

Record parameters := {
  p1 : Q; p2 : Q; p3 : Q; p4 : Q; p5 : Q;
  p6 : Q; p7 : Q; p8 : Q; p9 : Q; p10 : Q;
  p11 : Q; p12 : Q; p13 : Q; p14 : Q; p15 : Q;
  p16 : Q; p17 : Q; p18 : Q; p19 : Q; p20 : Q
}.

(** What one iteration computes from the snapshot [t] before it writes
    anything: the key, the indicators, and the two values it saves.
    (The source also binds [n = max(1, len(trains))] and never uses it.) *)
Record frame := {
  tid : value Q;
  indicators : parameters;
  speed_kmh : Q;
  accel : Q
}.

Definition train_frame (t : dict) : result frame :=
  (tid <- item t "id" ;;
   speed_kmh <- get_num t "speed" 0 ;;
   progress <- get_num t "progress" 0 ;;
   priority <- get_num t "priority" 1 ;;
   let status := get t "status" (VStr "RUNNING") in
   let speed_mps := speed_kmh / 3.6 in
   let p1 := py_min 1.0 (speed_kmh / 200.0) in
   prev_speed <- get_num t "prev_speed" speed_kmh ;;
   let accel := (speed_kmh - prev_speed) / py_max 1.0 1.0 in
   let p2 := accel / 50.0 in
   let p2 := py_max (-1.0) (py_min 1.0 p2) in
   prev_accel <- get_num t "prev_accel" accel ;;
   let jerk := accel - prev_accel in
   let p3 := jerk / 20.0 in
   let p3 := py_max (-1.0) (py_min 1.0 p3) in
   let p4 := (speed_mps ^ 2) / (40.0 ^ 2) in
   let p4 := py_min 1.0 p4 in
   let p5 := py_max 0.0 (py_min 1.0 progress) in
   let p6 := 1.0 - p5 in
   let decel := 0.8 in
   let stopping_distance := (speed_mps ^ 2) / (2 * decel + 1e-9) in
   let p7 := py_min 1.0 (stopping_distance / 2000.0) in
   let p8 := py_min 1.0 (priority / 3.0) in
   start_time <- get_num t "startTime" 0 ;;
   elapsed <- (if Qltb 0 start_time
               then now <- get_num t "now" start_time ;;
                    Ok ((now - start_time) / 1000.0)
               else Ok 0) ;;
   let p9 := py_min 1.0 (elapsed / 3600.0) in
   let p10 := status_risk status in
   let p11 := 0.0 in
   let p12 := py_abs (speed_kmh - prev_speed) / 200.0 in
   let p13 := py_min 1.0 (speed_kmh / py_max 1.0 (priority * 100.0)) in
   let p14 := 1.0 - py_min 1.0 (py_abs p3) in
   let p15 := py_min 1.0 ((speed_mps * 1.0) / 50.0) in
   let p16 := p5 in
   let p17 := if Qltb speed_kmh 0 then py_min 1.0 (py_abs speed_kmh / 50.0) else 0.0 in
   let p18 := 0.0 in
   lat <- get_num t "lat" 0 ;;
   lon <- get_num t "lon" 0 ;;
   let p19 := py_min 1.0 (py_mod1 (py_abs lat + py_abs lon)) in
   let p20 := (p1 + p5 + p8) / 3.0 in
   Ok {| tid := tid;
         indicators :=
           {| p1 := p1; p2 := p2; p3 := p3; p4 := p4; p5 := p5;
              p6 := p6; p7 := p7; p8 := p8; p9 := p9; p10 := p10;
              p11 := p11; p12 := p12; p13 := p13; p14 := p14; p15 := p15;
              p16 := p16; p17 := p17; p18 := p18; p19 := p19; p20 := p20 |};
         speed_kmh := speed_kmh;
         accel := accel |})%py.

(** [t["prev_speed"] = speed_kmh; t["prev_accel"] = accel] *)
Definition save_frame (t : dict) (f : frame) : dict :=
  <["prev_accel" := VNum (accel f)]> (<["prev_speed" := VNum (speed_kmh f)]> t).

(** [results[tid] = ...] on a dict kept in insertion order. *)
Fixpoint dict_set (results : list (value Q * parameters)) (k : value Q) (v : parameters)
    : list (value Q * parameters) :=
  match results with
  | [] => [(k, v)]
  | (k', v') :: rest =>
      if value_eqb k' k then (k', v) :: rest else (k', v') :: dict_set rest k v
  end.

(** The loop over the trains; an exception leaves the store as the
    earlier iterations made it. *)
Fixpoint train_loop (trains : list loc) (results : list (value Q * parameters))
    (h : heap) : result (list (value Q * parameters)) * heap :=
  match trains with
  | [] => (Ok results, h)
  | l :: rest =>
      match train_frame (h l) with
      | Raise e => (Raise e, h)
      | Ok f =>
          train_loop rest (dict_set results (tid f) (indicators f))
                     (<[l := save_frame (h l) f]> h)
      end
  end.

Definition compute_train_parameters (trains : list loc) (h : heap)
    : result (list (value Q * parameters)) * heap :=
  train_loop trains [] h.

(** The snapshots the module is written for: an ["id"], and numbers (or
    nothing) under the keys it does arithmetic on. *)
Definition number_or_absent (t : dict) (k : string) : bool :=
  match t !! k with
  | Some (VNum _) | None => true
  | Some _ => false
  end.

Definition numeric_keys : list string :=
  [ "speed"; "progress"; "priority"; "prev_speed"; "prev_accel";
    "startTime"; "now"; "lat"; "lon" ].

Definition well_formed (t : dict) : bool :=
  bool_decide (is_Some (t !! "id")) && forallb (number_or_absent t) numeric_keys.

End Kinematics.

(** ** Python built-ins on reals *)

Module PyR.
Local Open Scope R_scope.

Abbreviation dict := (gmap string (value R)).

(** [d[k]] *)
Definition item (d : dict) (k : string) : result (value R) :=
  match d !! k with
  | Some v => Ok v
  | None => Raise KeyError
  end.

(** A value where arithmetic needs a number. *)
Definition as_num (v : value R) : result R :=
  match v with
  | VNum x => Ok x
  | _ => Raise TypeError
  end.

(** [d.get(k, default)] *)
Definition get (d : dict) (k : string) (default : value R) : value R :=
  match d !! k with
  | Some v => v
  | None => default
  end.

(** [a > b]: numbers by value, strings in lexicographic order, anything
    else is a [TypeError]. *)
Definition py_gt (a b : value R) : result bool :=
  match a, b with
  | VNum x, VNum y => Ok (if Rlt_dec y x then true else false)
  | VStr s, VStr t => Ok (String.ltb t s)
  | _, _ => Raise TypeError
  end.

End PyR.

(** ** extreme_ai_server.py: great-circle distance *)

Module Geodesy.
Local Open Scope R_scope.

(** [math.radians] *)
Definition radians (deg : R) : R := deg * (PI / 180).

Definition haversine (lat1 lon1 lat2 lon2 : R) : R :=
  let R := 6371000 in
  let dLat := radians (lat2 - lat1) in
  let dLon := radians (lon2 - lon1) in
  let a := sin (dLat / 2) ^ 2 +
           cos (radians lat1) *
           cos (radians lat2) *
           sin (dLon / 2) ^ 2 in
  2 * R * asin (sqrt a).

End Geodesy.

(** ** extreme_ai_server.py: collision arbitration *)

Module Arbitration.
Import PyR Geodesy.
Local Open Scope R_scope.

(** The returned dict: its ["action"] and the keys that go with it. *)
Inductive decision :=
| NO_ACTION
| STOP_BOTH (reason : string)
| STOP_ONE (stop_train let_pass : value R) (reason : string).

Definition decide_collision_action (trains : list dict) : result decision :=
  match trains with
  | [] | [_] => Ok NO_ACTION
  | A :: B :: _ =>
      (latA <- item A "lat" ;;
       lonA <- item A "lon" ;;
       latB <- item B "lat" ;;
       lonB <- item B "lon" ;;
       latA <- as_num latA ;;
       lonA <- as_num lonA ;;
       latB <- as_num latB ;;
       lonB <- as_num lonB ;;
       let dist := haversine latA lonA latB lonB in
       let prA := get A "priority" (VNum 1) in
       let prB := get B "priority" (VNum 1) in
       let sA := get A "speed" (VNum 0) in
       let sB := get B "speed" (VNum 0) in
       if Rle_dec dist 35 then Ok (STOP_BOTH "Critical proximity")
       else
         a_higher <- py_gt prA prB ;;
         if a_higher : bool then
           idB <- item B "id" ;;
           idA <- item A "id" ;;
           Ok (STOP_ONE idB idA "Train A higher priority")
         else
           b_higher <- py_gt prB prA ;;
           if b_higher : bool then
             idA <- item A "id" ;;
             idB <- item B "id" ;;
             Ok (STOP_ONE idA idB "Train B higher priority")
           else
             a_faster <- py_gt sA sB ;;
             if a_faster : bool then
               idB <- item B "id" ;;
               idA <- item A "id" ;;
               Ok (STOP_ONE idB idA "Train A faster")
             else
               b_faster <- py_gt sB sA ;;
               if b_faster : bool then
                 idA <- item A "id" ;;
                 idB <- item B "id" ;;
                 Ok (STOP_ONE idA idB "Train B faster")
               else Ok (STOP_BOTH "Same speed & priority"))%py
  end.

End Arbitration.

(** ** track_segmenter.py *)

Module Segmenter.
Import PyR.
Local Open Scope R_scope.

Record point := { lat : R; lon : R }.

Section Segmenter.

(** The environment record and its generator come from
    [environment_model]; the distance function from the [haversine]
    module.  Neither module is part of the sources at hand. *)
Variable Env : Type.
Variable generate_segment_environment : string -> R -> Env.
Variable haversine : R -> R -> R -> R -> R.

Record segment := {
  id : string;
  start : point;
  end_ : point;
  env : Env
}.

(** [stations[u]] *)
Definition station (stations : gmap string dict) (u : string) : result dict :=
  match stations !! u with
  | Some s => Ok s
  | None => Raise KeyError
  end.

(** [a // b] on floats, then [int]. *)
Definition floordiv (a b : R) : result Z :=
  if Req_dec_T b 0 then Raise ZeroDivisionError else Ok (Zfloor (a / b)).

(** The body of the [for] loop, for index [i]. *)
Definition make_segment (u v : string) (lat1 lon1 lat2 lon2 segment_length : R)
    (num_segments : Z) (i : nat) : segment :=
  let t1 := INR i / IZR num_segments in
  let t2 := (INR i + 1) / IZR num_segments in
  let sx := lat1 + (lat2 - lat1) * t1 in
  let sy := lon1 + (lon2 - lon1) * t1 in
  let ex := lat1 + (lat2 - lat1) * t2 in
  let ey := lon1 + (lon2 - lon1) * t2 in
  let segment_id := (u +:+ "-" +:+ v +:+ "-" +:+ pretty i)%string in
  let segment_env := generate_segment_environment segment_id segment_length in
  {| id := segment_id;
     start := {| lat := sx; lon := sy |};
     end_ := {| lat := ex; lon := ey |};
     env := segment_env |}.

Definition segment_track (stations : gmap string dict) (u v : string)
    (segment_length : R) : result (list segment) :=
  (A <- station stations u ;;
   B <- station stations v ;;
   lat1 <- item A "lat" ;;
   lon1 <- item A "lon" ;;
   lat2 <- item B "lat" ;;
   lon2 <- item B "lon" ;;
   lat1 <- as_num lat1 ;;
   lon1 <- as_num lon1 ;;
   lat2 <- as_num lat2 ;;
   lon2 <- as_num lon2 ;;
   let total_dist := haversine lat1 lon1 lat2 lon2 in
   q <- floordiv total_dist segment_length ;;
   let num_segments := Z.max 1 q in
   Ok (map (make_segment u v lat1 lon1 lat2 lon2 segment_length num_segments)
           (seq 0 (Z.to_nat num_segments))))%py.

End Segmenter.

End Segmenter.

(** ** Inputs of the repository's tests *)

Module TestData.
Local Open Scope Q_scope.

(** test_compute_train_parameters.py *)
Definition T1 : gmap string (value Q) :=
  {[ "id" := VStr "T1"; "speed" := VNum 100; "progress" := VNum 0.5;
     "priority" := VNum 1; "status" := VStr "RUNNING";
     "lat" := VNum 28.6139; "lon" := VNum 77.2090;
     "startTime" := VNum 1000000; "now" := VNum 1003600 ]}.

Definition T2 : gmap string (value Q) :=
  {[ "id" := VStr "T2"; "speed" := VNum 80; "progress" := VNum 0.3;
     "priority" := VNum 2; "status" := VStr "STOPPED";
     "lat" := VNum 28.6692; "lon" := VNum 77.4538;
     "startTime" := VNum 1000000; "now" := VNum 1007200 ]}.

Definition train_missing : gmap string (value Q) := {[ "id" := VStr "T3" ]}.

Definition train_neg : gmap string (value Q) :=
  {[ "id" := VStr "T4"; "speed" := VNum (-50) ]}.

Definition train_high : gmap string (value Q) :=
  {[ "id" := VStr "T5"; "speed" := VNum 300 ]}.

(** A store with [T1] at address 0 and [T2] everywhere else. *)
Definition store (l : nat) : gmap string (value Q) :=
  match l with
  | O => T1
  | S _ => T2
  end.

End TestData.

(** ** Positions at a known distance *)

Module Scenarios.
Local Open Scope R_scope.

(** The latitude, in degrees, of the point [d] metres due north of the
    origin of coordinates. *)
Definition north_of_origin (d : R) : R := d / 6371000 * (180 / PI).

Definition train_at (id : string) (lat lon priority speed : R) : gmap string (value R) :=
  {[ "id" := VStr id; "lat" := VNum lat; "lon" := VNum lon;
     "priority" := VNum priority; "speed" := VNum speed ]}.

Definition station_at (lat lon : R) : gmap string (value R) :=
  {[ "lat" := VNum lat; "lon" := VNum lon ]}.

(** Two stations 250 m apart on the prime meridian. *)
Definition two_stations : gmap string (gmap string (value R)) :=
  {[ "DEL" := station_at 0 0; "NDLS" := station_at (north_of_origin 250) 0 ]}.

End Scenarios.

(** ** Reading the result of [compute_train_parameters] *)

Module Results.
Import PyQ Kinematics.

(** [results.get(k)]: the entry whose key equals [k], if any. *)
Fixpoint dict_get (results : list (value Q * parameters)) (k : value Q)
    : option parameters :=
  match results with
  | [] => None
  | (k', v) :: rest => if value_eqb k' k then Some v else dict_get rest k
  end.

End Results.

(** ** Predicates of the statements on computeTrackParameters.py *)

Module Ranges.
Import TrackRisk.
Local Open Scope Q_scope.

Definition is_byte (b : Z) : Prop := (0 <= b < 256)%Z.

(** [len(edges)] as a float. *)
Definition count (k : nat) : Q := inject_Z (Z.of_nat k).

(** After [k] edges: the curve and lateral-clearance sums add up to [k],
    the ballast sums likewise, the busy-ness proxy is between [k] and
    [2k], and the fastest edge seen is within the speed limits. *)
Definition sums_invariant (k : nat) (a : sums) : Prop :=
  0 <= sum_curve a <= count k /\
  sum_lateral_clearance a == count k - sum_curve a /\
  0 <= sum_ballast a <= count k /\
  sum_ballast_uniform a == count k - sum_ballast a /\
  count k <= total_utilization_proxy a <= 2 * count k /\
  0 <= max_speed_seen a <= 200 /\
  ((0 < k)%nat -> 40 <= max_speed_seen a).

End Ranges.

(** ** smart_ai_server.py *)

Module SmartServer.
Local Open Scope R_scope.

Definition COLLISION_DISTANCE_METERS : R := 100.

(** [class Train(BaseModel)] *)
Record Train := { name : string; lat : R; lon : R }.

Definition haversine (lat1 lon1 lat2 lon2 : R) : R :=
  let R := 6371000 in
  let dlat := Geodesy.radians (lat2 - lat1) in
  let dlon := Geodesy.radians (lon2 - lon1) in
  let a := sin (dlat / 2) ^ 2
           + cos (Geodesy.radians lat1)
           * cos (Geodesy.radians lat2)
           * sin (dlon / 2) ^ 2 in
  2 * R * asin (sqrt a).

(** One entry of the returned list. *)
Record decision := {
  action : string;
  reason : string;
  affected_trains : list string
}.

Definition stop (A B : Train) : decision :=
  {| action := "STOP"; reason := "Collision danger";
     affected_trains := [name A; name B] |}.


Definition normal : decision :=
  {| action := "NORMAL"; reason := "All safe"; affected_trains := [] |}.

(** The inner loop: [A = trains[i]] against every later train. *)
Fixpoint scan_from (A : Train) (later : list Train) (decisions : list decision)
    : list decision :=
  match later with
  | [] => decisions
  | B :: later' =>
      let dist := haversine (lat A) (lon A) (lat B) (lon B) in
      scan_from A later'
        (if Rle_dec dist COLLISION_DISTANCE_METERS
         then decisions ++ [stop A B]
         else decisions)
  end.

(** The outer loop. *)
Fixpoint scan (trains : list Train) (decisions : list decision) : list decision :=
  match trains with
  | [] => decisions
  | A :: later => scan later (scan_from A later decisions)
  end.

Definition decide (trains : list Train) : list decision :=
  let decisions := scan trains [] in
  match decisions with
  | [] => [normal]
  | _ => decisions
  end.

End SmartServer.

(** ** extreme_ai_server.py: the /decide endpoint *)

Module Endpoint.
Import PyR Arbitration Segmenter.
Local Open Scope R_scope.

Section Endpoint.

(** [environment_model] and the [haversine] module of [track_segmenter]
    are not part of the sources at hand. *)
Variable SEnv : Type.
Variable Env : Type.
Variable generate_station_environment : string -> SEnv.
Variable generate_segment_environment : string -> R -> Env.
Variable segment_haversine : R -> R -> R -> R -> R.

(** The two module-level caches. *)
Record caches := {
  station_env : gmap string SEnv;
  segment_env_map : gmap string (list (segment Env))
}.

(** The returned dict: the decision, and the keys added around it. *)
Record response := {
  decision_of : decision;
  error : option string;
  stop_train_id : option (value R);
  let_pass_id : option (value R)
}.

(** [if name not in station_env: station_env[name] = ...] *)
Definition cache_station (env : gmap string SEnv) (name : string) : gmap string SEnv :=
  match env !! name with
  | Some _ => env
  | None => <[name := generate_station_environment name]> env
  end.

(** [for u, v in edges: segment_env_map[f"{u}-{v}"] = segment_track(...)];
    an exception leaves the map as filled so far. *)
Fixpoint build_segments (stations : gmap string dict) (edges : list (string * string))
    (m : gmap string (list (segment Env)))
    : result unit * gmap string (list (segment Env)) :=
  match edges with
  | [] => (Ok tt, m)
  | (u, v) :: rest =>
      match segment_track Env generate_segment_environment segment_haversine
                          stations u v 100.0 with
      | Raise e => (Raise e, m)
      | Ok segs => build_segments stations rest (<[(u +:+ "-" +:+ v)%string := segs]> m)
      end
  end.

(** [f"{u}-{v}"] *)
Definition edge_key (e : string * string) : string := (e.1 +:+ "-" +:+ e.2)%string.

(** An edge between two stations of the request that have numeric
    coordinates. *)
Definition segmentable (stations : gmap string dict) (e : string * string) : Prop :=
  exists (A B : dict) (lat1 lon1 lat2 lon2 : R),
    stations !! e.1 = Some A /\ stations !! e.2 = Some B /\
    A !! "lat" = Some (VNum lat1) /\ A !! "lon" = Some (VNum lon1) /\
    B !! "lat" = Some (VNum lat2) /\ B !! "lon" = Some (VNum lon2).

Definition respond (trains : list dict) : result response :=
  match trains with
  | [] | [_] =>
      Ok {| decision_of := NO_ACTION; error := Some "Not enough trains"%string;
            stop_train_id := None; let_pass_id := None |}
  | _ =>
      (d <- decide_collision_action trains ;;
       Ok match d with
          | STOP_ONE stop pass _ =>
              {| decision_of := d; error := None;
                 stop_train_id := Some stop; let_pass_id := Some pass |}
          | _ =>
              {| decision_of := d; error := None;
                 stop_train_id := None; let_pass_id := None |}
          end)%py
  end.

Definition decide_endpoint (trains : list dict) (stations : gmap string dict)
    (edges : list (string * string)) (c : caches) : result response * caches :=
  let station_env' :=
    fold_left cache_station (map fst (map_to_list stations)) (station_env c) in
  match build_segments stations edges ∅ with
  | (Raise e, m) => (Raise e, {| station_env := station_env'; segment_env_map := m |})
  | (Ok _, m) =>
      (respond trains, {| station_env := station_env'; segment_env_map := m |})
  end.

End Endpoint.

End Endpoint.

(** ** Further inputs *)

Module MoreTestData.
Local Open Scope Q_scope.

(** test_track_params.py *)
Definition stations : list (gmap string (value Q)) :=
  [ {[ "id" := VStr "DEL"; "name" := VStr "Delhi";
       "lat" := VNum 28.6139; "lon" := VNum 77.2090 ]};
    {[ "id" := VStr "GZB"; "name" := VStr "Ghaziabad";
       "lat" := VNum 28.6692; "lon" := VNum 77.4538 ]};
    {[ "id" := VStr "AGC"; "name" := VStr "Agra Cantt";
       "lat" := VNum 27.1617; "lon" := VNum 78.0081 ]} ].

Definition edges : list (gmap string string) :=
  [ {[ "source" := "DEL"; "target" := "GZB" ]};
    {[ "source" := "GZB"; "target" := "AGC" ]} ].

(** The same stations, the second one without its ["id"]. *)
Definition stations_without_id : list (gmap string (value Q)) :=
  [ {[ "id" := VStr "DEL"; "lat" := VNum 28.6139; "lon" := VNum 77.2090 ]};
    {[ "name" := VStr "Ghaziabad"; "lat" := VNum 28.6692; "lon" := VNum 77.4538 ]} ].

(** [math.hypot] is irrational; the examples run with the taxicab norm in
    its place. *)
Definition taxicab (x y : Q) : Q := PyQ.py_abs x + PyQ.py_abs y.

(** A store with [T1] at address 0 and a snapshot without ["id"]
    everywhere else. *)
Definition store_without_id (l : nat) : gmap string (value Q) :=
  match l with
  | O => TestData.T1
  | S _ => {[ "speed" := VNum 80 ]}
  end.

End MoreTestData.

(** * Properties *)

(** ** Comparisons and clamps on rationals *)

Module PyQFacts.
Import PyQ.
Local Open Scope Q_scope.

Lemma Qltb_reflect (a b : Q) : reflect (a < b) (Qltb a b).
Proof.
  unfold Qltb. destruct (Qle_bool b a) eqn:E; simpl; constructor.
  - apply Qle_bool_iff in E. intros H. lra.
  - apply Qnot_le_lt. intros Hle. apply Qle_bool_iff in Hle. congruence.
Qed.

Lemma Qle_bool_reflect (a b : Q) : reflect (a <= b) (Qle_bool a b).
Proof.
  destruct (Qle_bool a b) eqn:E; constructor.
  - by apply Qle_bool_iff.
  - intros H. apply Qle_bool_iff in H. congruence.
Qed.

Lemma py_min_cases (a b : Q) :
  (b < a /\ py_min a b = b) \/ (a <= b /\ py_min a b = a).
Proof. unfold py_min. destruct (Qltb_reflect b a); [left | right]; split; auto; lra. Qed.

Lemma py_max_cases (a b : Q) :
  (a < b /\ py_max a b = b) \/ (b <= a /\ py_max a b = a).
Proof. unfold py_max. destruct (Qltb_reflect a b); [left | right]; split; auto; lra. Qed.

Lemma py_abs_cases (a : Q) :
  (a < 0 /\ py_abs a = - a) \/ (0 <= a /\ py_abs a = a).
Proof. unfold py_abs. destruct (Qltb_reflect a 0); [left | right]; split; auto; lra. Qed.

Lemma py_min_le_l (a b : Q) : py_min a b <= a.
Proof. destruct (py_min_cases a b) as [[? ->] | [? ->]]; lra. Qed.

Lemma py_min_le_r (a b : Q) : py_min a b <= b.
Proof. destruct (py_min_cases a b) as [[? ->] | [? ->]]; lra. Qed.

Lemma py_max_ge_l (a b : Q) : a <= py_max a b.
Proof. destruct (py_max_cases a b) as [[? ->] | [? ->]]; lra. Qed.

Lemma py_max_ge_r (a b : Q) : b <= py_max a b.
Proof. destruct (py_max_cases a b) as [[? ->] | [? ->]]; lra. Qed.

Lemma py_abs_nonneg (a : Q) : 0 <= py_abs a.
Proof. destruct (py_abs_cases a) as [[? ->] | [? ->]]; lra. Qed.

(** [max(lo, min(hi, v))] lands in [[lo, hi]] whenever [lo <= hi]. *)
Lemma clamp_range (lo hi v : Q) :
  lo <= hi -> lo <= py_max lo (py_min hi v) <= hi.
Proof.
  intros Hle. split; [apply py_max_ge_l |].
  destruct (py_max_cases lo (py_min hi v)) as [[? ->] | [? ->]]; [apply py_min_le_l | lra].
Qed.

Lemma py_mod1_range (x : Q) : 0 <= py_mod1 x < 1.
Proof.
  unfold py_mod1. pose proof (Qfloor_le x) as Hlo. pose proof (Qlt_floor x) as Hhi.
  rewrite inject_Z_plus in Hhi. change (inject_Z 1) with 1 in Hhi. split; lra.
Qed.

End PyQFacts.

(** ** Station capacity *)

Module StationProps.
Import Station PyQFacts.
Local Open Scope Q_scope.

Lemma platforms_positive (num_platforms : Z) : 0 < inject_Z (Z.max 1 num_platforms).
Proof. change 0 with (inject_Z 0). rewrite <- Zlt_Qlt. lia. Qed.

(** C4. When [avg_dwell_s + buffer_s <= 0] both [capacity_per_platform]
    and [station_capacity] return positive infinity (the functions are
    total: nothing is raised); when the sum is positive,
    [capacity_per_platform] is [3600 / (avg_dwell_s + buffer_s)] and
    [station_capacity] is that quotient times [max(1, num_platforms)]. *)
Theorem capacity_unbounded_or_quotient (num_platforms : Z) (avg_dwell_s buffer_s : Q) :
  (avg_dwell_s + buffer_s <= 0 ->
     capacity_per_platform avg_dwell_s buffer_s = PInf /\
     station_capacity num_platforms avg_dwell_s buffer_s = PInf) /\
  (0 < avg_dwell_s + buffer_s ->
     capacity_per_platform avg_dwell_s buffer_s = Fin (3600.0 / (avg_dwell_s + buffer_s)) /\
     station_capacity num_platforms avg_dwell_s buffer_s =
       Fin (3600.0 / (avg_dwell_s + buffer_s) * inject_Z (Z.max 1 num_platforms))).
Proof.
  unfold station_capacity, capacity_per_platform. split; intros H.
  - destruct (Qle_bool_reflect (avg_dwell_s + buffer_s) 0) as [_ | Hn]; [| contradiction].
    split; [reflexivity |]. simpl.
    destruct (Qlt_le_dec 0 (inject_Z (Z.max 1 num_platforms))) as [_ | Hle]; [reflexivity |].
    pose proof (platforms_positive num_platforms). lra.
  - destruct (Qle_bool_reflect (avg_dwell_s + buffer_s) 0) as [Hle | _]; [lra |].
    split; reflexivity.
Qed.

Lemma capacity_unbounded_or_quotient_witness :
  (capacity_per_platform 0 0 = PInf /\ station_capacity 2 0 0 = PInf) /\
  (capacity_per_platform 150 30 = Fin (3600.0 / (150 + 30)) /\
   station_capacity 2 150 30 = Fin (3600.0 / (150 + 30) * inject_Z (Z.max 1 2))).
Proof.
  split.
  - apply (capacity_unbounded_or_quotient 2 0 0). vm_compute. discriminate.
  - apply (capacity_unbounded_or_quotient 2 150 30). reflexivity.
Defined.

(** The capacity entry of [compute_station_parameters] is that same value. *)
Lemma station_parameters_capacity sl pl n atl rate dwell v mu rt buffer cv margin :
  sp_station_capacity_trains_per_hr
    (compute_station_parameters sl pl n atl rate dwell v mu rt buffer cv margin)
  = station_capacity n dwell buffer.
Proof. reflexivity. Qed.

(** C9, as stated, fails: a negative station length with a positive train
    length gives a negative count. *)
Lemma max_simultaneous_trains_negative :
  max_simultaneous_trains (-400) 200 = (-2)%Z /\
  ~ (0 <= max_simultaneous_trains (-400) 200)%Z.
Proof. split; [reflexivity | vm_compute; intros H; apply H; reflexivity]. Qed.

(** C9, amended. [max_simultaneous_trains] is
    [floor(station_length_m / avg_train_length_m)] when the train length is
    positive and [0] when the train length is [<= 0]; it is non-negative
    whenever the station length is non-negative. *)
Theorem max_simultaneous_trains_spec (station_length_m avg_train_length_m : Q) :
  (0 < avg_train_length_m ->
     max_simultaneous_trains station_length_m avg_train_length_m
     = Qfloor (station_length_m / avg_train_length_m)) /\
  (avg_train_length_m <= 0 ->
     max_simultaneous_trains station_length_m avg_train_length_m = 0%Z) /\
  (0 <= station_length_m ->
     (0 <= max_simultaneous_trains station_length_m avg_train_length_m)%Z).
Proof.
  unfold max_simultaneous_trains.
  destruct (Qle_bool_reflect avg_train_length_m 0) as [Hle | Hgt].
  - repeat split; intros; [lra | lia].
  - repeat split; intros; [lra |].
    assert (Hpos : 0 < avg_train_length_m) by lra.
    assert (Hq : 0 <= station_length_m / avg_train_length_m).
    { apply Qle_shift_div_l; [exact Hpos | lra]. }
    change 0%Z with (Qfloor 0). by apply Qfloor_resp_le.
Qed.

Lemma max_simultaneous_trains_spec_witness :
  max_simultaneous_trains 400 200 = Qfloor (400 / 200) /\
  max_simultaneous_trains 400 0 = 0%Z /\
  (0 <= max_simultaneous_trains 400 200)%Z.
Proof.
  pose proof (max_simultaneous_trains_spec 400 200) as (H1 & _ & H3).
  pose proof (max_simultaneous_trains_spec 400 0) as (_ & H2 & _).
  split; [apply H1; reflexivity |].
  split; [apply H2; vm_compute; discriminate | apply H3; vm_compute; discriminate].
Defined.

End StationProps.

(** ** Track risk *)

Module TrackRiskProps.
Import PyQ PyQFacts TrackRisk.
Local Open Scope Q_scope.

Lemma clamp01_range (v : Q) : 0 <= _clamp01 v <= 1.
Proof.
  unfold _clamp01, _clamp.
  pose proof (clamp_range 0.0 1.0 v) as H. lra.
Qed.

(** The clamp only looks at the value of its argument. *)
Lemma clamp01_proper (v w : Q) : v == w -> _clamp01 v == _clamp01 w.
Proof.
  intros E. unfold _clamp01, _clamp.
  destruct (py_min_cases 1.0 v) as [[? ->] | [? ->]],
           (py_min_cases 1.0 w) as [[? ->] | [? ->]]; try lra;
  match goal with
  | |- py_max ?a ?x == py_max ?a ?y =>
      destruct (py_max_cases a x) as [[? ->] | [? ->]],
               (py_max_cases a y) as [[? ->] | [? ->]]; lra
  end.
Qed.

Lemma py_max_proper (a v w : Q) : v == w -> py_max a v == py_max a w.
Proof.
  intros E.
  destruct (py_max_cases a v) as [[? ->] | [? ->]],
           (py_max_cases a w) as [[? ->] | [? ->]]; lra.
Qed.

(** C2, as stated, fails: the same edge identity with two distances gives
    two track conditions and two speed limits. *)
Lemma edge_metrics_depend_on_distance :
  ~ track_condition (compute_edge_metrics "DEL-GZB" 1.0)
    == track_condition (compute_edge_metrics "DEL-GZB" 25.0) /\
  ~ max_allowed_speed_kmh (compute_edge_metrics "DEL-GZB" 1.0)
    == max_allowed_speed_kmh (compute_edge_metrics "DEL-GZB" 25.0).
Proof. split; vm_compute; discriminate. Qed.

(** C2, amended. Two calls with the same edge identity and the same
    distance return identical metrics; the curve severity, gradient
    index, track age, switch density, drainage risk, ballast condition,
    embankment susceptibility, electrification health and switch
    condition are functions of the edge identity alone, whatever the
    distances; track condition and maximum allowed speed agree as soon as
    the two distances are equal as numbers. *)
Theorem edge_metrics_deterministic (edge_id : string) (d1 d2 : Q) :
  let m1 := compute_edge_metrics edge_id d1 in
  let m2 := compute_edge_metrics edge_id d2 in
  (d1 = d2 -> m1 = m2) /\
  (curve_severity m1 = curve_severity m2 /\
   gradient_index m1 = gradient_index m2 /\
   track_age m1 = track_age m2 /\
   switch_count_norm m1 = switch_count_norm m2 /\
   drainage_risk m1 = drainage_risk m2 /\
   ballast_condition m1 = ballast_condition m2 /\
   embankment_susceptibility m1 = embankment_susceptibility m2 /\
   electrification_health m1 = electrification_health m2 /\
   switch_condition m1 = switch_condition m2) /\
  (d1 == d2 ->
   track_condition m1 == track_condition m2 /\
   max_allowed_speed_kmh m1 == max_allowed_speed_kmh m2).
Proof.
  intros m1 m2. split; [intros ->; reflexivity |].
  split; [repeat split |].
  intros E. subst m1 m2. unfold compute_edge_metrics.
  cbn [track_condition max_allowed_speed_kmh].
  generalize (_seed_from_str edge_id). intros seed.
  assert (Htc : forall r b,
             _clamp01 (0.2 * r + 0.3 * b / 100.0 + 0.1 * (d1 / 10.0))
             == _clamp01 (0.2 * r + 0.3 * b / 100.0 + 0.1 * (d2 / 10.0))).
  { intros r b. apply clamp01_proper. rewrite E. reflexivity. }
  split; [apply Htc |].
  apply py_max_proper. rewrite Htc. reflexivity.
Qed.

Lemma edge_metrics_deterministic_witness :
  compute_edge_metrics "DEL-GZB" 25.0 = compute_edge_metrics "DEL-GZB" 25.0 /\
  track_condition (compute_edge_metrics "DEL-GZB" (1 # 2))
  == track_condition (compute_edge_metrics "DEL-GZB" (2 # 4)).
Proof.
  pose proof (edge_metrics_deterministic "DEL-GZB" 25.0 25.0) as Hsame.
  pose proof (edge_metrics_deterministic "DEL-GZB" (1 # 2) (2 # 4)) as Heq.
  cbv zeta in Hsame, Heq.
  destruct Hsame as (Hsame & _). destruct Heq as (_ & _ & Heq).
  split; [exact (Hsame eq_refl) |].
  assert (Hd : 1 # 2 == 2 # 4) by reflexivity.
  exact (proj1 (Heq Hd)).
Defined.

(** C10. The maximum allowed speed of an edge lies in [[40, 200]] for
    every edge identity and every distance. *)
Theorem max_allowed_speed_range (edge_id : string) (distance_km : Q) :
  40 <= max_allowed_speed_kmh (compute_edge_metrics edge_id distance_km) <= 200.
Proof.
  unfold compute_edge_metrics. cbn [max_allowed_speed_kmh].
  generalize (_seed_from_str edge_id). intros seed.
  repeat match goal with
  | |- context [_clamp01 ?v] =>
      let c := fresh "c" in
      pose proof (clamp01_range v); set (c := _clamp01 v) in *; clearbody c
  end.
  match goal with
  | |- _ <= py_max ?a ?b <= _ => destruct (py_max_cases a b) as [[? ->] | [? ->]]
  end; lra.
Qed.

Lemma zero_parameters_unfold :
  zero_parameters = list_to_map (map (fun k => (k, 0.0)) parameter_names).
Proof. vm_compute. reflexivity. Qed.

(** C8. With no edges, whatever the stations, [compute_track_parameters]
    returns (it does not raise) the dict whose keys are exactly
    [p21] .. [p40], each with the value [0.0]. *)
Theorem zero_edges_zero_parameters (hypot : Q -> Q -> Q) (stations : list dict)
    (default_segment_km : Q) :
  exists ps : gmap string Q,
    compute_track_parameters hypot stations [] default_segment_km = Ok ps /\
    size ps = 20%nat /\
    forall k : string,
      ps !! k = if bool_decide (k ∈ parameter_names) then Some 0.0 else None.
Proof.
  exists zero_parameters. split; [reflexivity |]. split; [vm_compute; reflexivity |].
  intros k. rewrite zero_parameters_unfold. case_bool_decide as Hk.
  - apply elem_of_list_to_map_1.
    + apply (bool_decide_unpack _). vm_compute. exact I.
    + apply list_elem_of_fmap. exists k. split; [reflexivity | exact Hk].
  - apply not_elem_of_list_to_map_1. rewrite <- list_fmap_compose.
    intros Hin. apply Hk. apply list_elem_of_fmap in Hin as (k' & -> & Hk'). exact Hk'.
Qed.

End TrackRiskProps.


(** ** Train kinematics *)

Module KinematicsProps.
Import PyQ PyQFacts Kinematics.
Local Open Scope Q_scope.

Lemma rbind_ok {A B} (m : result A) (k : A -> result B) (b : B) :
  rbind m k = Ok b -> exists a, m = Ok a /\ k a = Ok b.
Proof. destruct m as [a | e]; simpl; [eauto | discriminate]. Qed.

(** Take a successful [train_frame] apart into its reads; the frame
    itself is substituted everywhere. *)
Ltac frame_inv H :=
  unfold train_frame in H;
  repeat match type of H with
  | rbind _ _ = Ok _ =>
      let x := fresh "x" in
      let E := fresh "E" in
      apply rbind_ok in H as (x & E & H)
  end;
  injection H as <-;
  cbn [indicators tid speed_kmh accel
       p1 p2 p3 p4 p5 p6 p7 p8 p9 p10 p11 p12 p13 p14 p15 p16 p17 p18 p19 p20] in *.

(** [lra] on [Q] takes [x / c] as an atom: turn division by a constant
    into multiplication by the constant's inverse. *)
Ltac norm_inv :=
  unfold Qdiv in *;
  repeat match goal with
  | |- context [Qinv ?c] =>
      let v := eval vm_compute in (Qinv c) in
      match v with Qmake _ _ => progress change (Qinv c) with v in * end
  | H : context [Qinv ?c] |- _ =>
      let v := eval vm_compute in (Qinv c) in
      match v with Qmake _ _ => progress change (Qinv c) with v in * end
  end.

Ltac split_case lem t :=
  let m := fresh "m" in
  let E := fresh "E" in
  destruct lem as [[? E] | [? E]];
  set (m := t) in *; clearbody m; subst m.

Ltac split_min_max :=
  repeat match goal with
  | |- context [py_min ?a ?b] => split_case (py_min_cases a b) (py_min a b)
  | |- context [py_max ?a ?b] => split_case (py_max_cases a b) (py_max a b)
  | |- context [py_abs ?a] => split_case (py_abs_cases a) (py_abs a)
  end.

Lemma status_risk_range (status : value Q) : 0 <= status_risk status <= 1.
Proof.
  unfold status_risk. repeat case_match; split; vm_compute; discriminate.
Qed.

Lemma square_div_nonneg (x c : Q) : 0 < c -> 0 <= x * x / c.
Proof.
  intros Hc. apply Qle_shift_div_l; [exact Hc |].
  pose proof (Qsqr_nonneg x) as H. simpl in H. lra.
Qed.

(** X11. The indicators that stay in their range for every snapshot,
    whatever its speed, priority, progress and timestamps are. *)
Lemma bounded_indicators (t : dict) (f : frame) :
  train_frame t = Ok f ->
  let p := indicators f in
  (-1 <= p2 p <= 1) /\ (-1 <= p3 p <= 1) /\
  (0 <= p4 p <= 1) /\ (0 <= p5 p <= 1) /\ (0 <= p6 p <= 1) /\ (0 <= p7 p <= 1) /\
  (0 <= p10 p <= 1) /\ (p11 p == 0) /\ (0 <= p14 p <= 1) /\ (0 <= p16 p <= 1) /\
  (0 <= p17 p <= 1) /\ (p18 p == 0) /\ (0 <= p19 p <= 1).
Proof.
  intros H. frame_inv H.
  repeat apply conj.
  all: try reflexivity.
  all: try apply status_risk_range.
  all: try (split_min_max; lra).
  - pose proof (square_div_nonneg (x0 / 3.6) (40.0 * 40.0) eq_refl).
    split_min_max; lra.
  - pose proof (square_div_nonneg (x0 / 3.6) (2 * 0.8 + 1e-9) eq_refl).
    split_min_max; norm_inv; lra.
  - destruct (Qltb_reflect x0 0); [split_min_max; norm_inv |]; lra.
  - destruct (Qltb_reflect x0 0); [split_min_max; norm_inv |]; lra.
  - pose proof (py_mod1_range (py_abs x7 + py_abs x8)).
    split_case (py_min_cases 1.0 (py_mod1 (py_abs x7 + py_abs x8)))
               (py_min 1.0 (py_mod1 (py_abs x7 + py_abs x8))); lra.
Qed.

(** At or above the 200 km/h reference the speed indicator is the
    constant [1.0] itself. *)
Lemma speed_indicator_capped (t : dict) (f : frame) (v : Q) :
  train_frame t = Ok f -> get_num t "speed" 0 = Ok v -> 200 <= v ->
  p1 (indicators f) = 1.0.
Proof.
  intros H Hv Hle. frame_inv H. rewrite Hv in *.
  match goal with E : Ok _ = Ok _ |- _ => injection E as <- end.
  unfold py_min. destruct (Qltb_reflect (v / 200.0) 1.0) as [Hlt | _]; [| reflexivity].
  norm_inv. lra.
Qed.

Example speed_100000 :
  exists f, train_frame {[ "id" := VStr "T5"; "speed" := VNum 100000 ]} = Ok f /\
            p1 (indicators f) = 1.0.
Proof. eexists. split; [vm_compute; reflexivity | reflexivity]. Qed.

(** C3, on the input of the repository's own reversal test
    [{"id": "T4", "speed": -50}]: the call succeeds and the speed
    indicator is [-0.25], below the documented range [0..1]; the
    efficiency and momentum indicators are negative as well. *)
Theorem negative_speed_leaves_unit_range :
  exists f,
    train_frame TestData.train_neg = Ok f /\
    p1 (indicators f) == -0.25 /\
    ~ (0 <= p1 (indicators f) <= 1) /\
    p13 (indicators f) < 0 /\ p15 (indicators f) < 0 /\
    p17 (indicators f) == 1.
Proof.
  eexists. split; [vm_compute; reflexivity |].
  split; [reflexivity |].
  split; [intros [H _]; vm_compute in H; apply H; reflexivity |].
  repeat split.
Qed.

(** The assertions of test_compute_train_parameters.py hold of the model. *)
Example test_basic_functionality :
  exists f1 f2,
    train_frame TestData.T1 = Ok f1 /\ train_frame TestData.T2 = Ok f2 /\
    p1 (indicators f1) == 0.5 /\ p5 (indicators f1) == 0.5 /\
    p8 (indicators f1) == 1 / 3 /\ p10 (indicators f1) == 0.1 /\
    p10 (indicators f2) == 0.5.
Proof. eexists _, _. repeat split; vm_compute; reflexivity. Qed.

Example test_edge_cases :
  compute_train_parameters [] TestData.store = (Ok [], TestData.store) /\
  exists f3 f4 f5,
    train_frame TestData.train_missing = Ok f3 /\
    train_frame TestData.train_neg = Ok f4 /\
    train_frame TestData.train_high = Ok f5 /\
    p1 (indicators f3) == 0 /\ p5 (indicators f3) == 0 /\ p8 (indicators f3) == 1 / 3 /\
    p17 (indicators f4) == 1 /\
    p1 (indicators f5) == 1.
Proof. split; [reflexivity |]. eexists _, _, _. repeat split; vm_compute; reflexivity. Qed.

(** The speed-variance indicator has no cap either. *)
Example speed_variance_above_one :
  exists f,
    train_frame {[ "id" := VStr "T6"; "speed" := VNum 300; "prev_speed" := VNum 0 ]} = Ok f /\
    p12 (indicators f) == 1.5.
Proof. eexists. split; [vm_compute; reflexivity | reflexivity]. Qed.

(** *** Well-formed snapshots are processed without an exception *)

Lemma get_num_returns (t : dict) (k : string) (d : Q) :
  number_or_absent t k = true -> exists x, get_num t k d = Ok x.
Proof.
  unfold number_or_absent, get_num.
  destruct (t !! k) as [[x | s |] |]; intros H; try discriminate; eauto.
Qed.

Lemma train_frame_returns (t : dict) :
  well_formed t = true -> exists f, train_frame t = Ok f.
Proof.
  unfold well_formed. intros H. apply andb_prop in H as [Hid Hnum].
  apply bool_decide_eq_true in Hid as [i Hid].
  cbn [forallb numeric_keys] in Hnum.
  repeat match type of Hnum with
  | (_ && _)%bool = true => let H := fresh "Hk" in apply andb_prop in Hnum as [H Hnum]
  end.
  unfold train_frame, item. rewrite Hid. cbn [rbind].
  repeat match goal with
  | |- context [rbind (get_num t ?k ?d)] =>
      let x := fresh "x" in
      let E := fresh "E" in
      destruct (get_num_returns t k d) as [x E]; [assumption |];
      rewrite E; cbn [rbind]
  | |- context [if Qltb ?a ?b then _ else _] => destruct (Qltb a b)
  end; eauto.
Qed.

(** C5, as stated, fails on the timestamps of the repository's test
    (start 1000000, now 1003600): the code divides the difference by 1000
    before it divides by 3600. *)
Lemma elapsed_time_not_difference_over_3600 :
  exists f,
    train_frame TestData.T1 = Ok f /\
    p9 (indicators f) == 0.001 /\
    ~ p9 (indicators f) == py_min 1.0 ((1003600 - 1000000) / 3600).
Proof.
  eexists. split; [vm_compute; reflexivity |].
  split; [reflexivity | vm_compute; discriminate].
Qed.

(** C5, amended. A well-formed snapshot is processed without an
    exception, and whenever a snapshot is: with a positive start time the
    elapsed-time indicator is [min(1.0, ((now - start) / 1000) / 3600)],
    where [now] defaults to the start time; it is 0 when the start time is
    absent or not positive, and 0 when the current-time field is absent. *)
Theorem elapsed_time_indicator (t : dict) :
  (well_formed t = true -> exists f, train_frame t = Ok f) /\
  (forall f : frame,
     train_frame t = Ok f ->
     exists start_time : Q,
       get_num t "startTime" 0 = Ok start_time /\
       (0 < start_time ->
          exists now : Q,
            get_num t "now" start_time = Ok now /\
            p9 (indicators f) = py_min 1.0 ((now - start_time) / 1000.0 / 3600.0)) /\
       (start_time <= 0 -> p9 (indicators f) == 0) /\
       (t !! "now" = None -> p9 (indicators f) == 0)).
Proof.
  split; [apply train_frame_returns |].
  intros f H. frame_inv H.
  match goal with E : get_num t "startTime" 0 = Ok ?s |- _ => exists s end.
  split; [assumption |].
  match goal with E : (if Qltb 0 ?s then _ else _) = Ok _ |- _ =>
    destruct (Qltb_reflect 0 s) as [Hpos | Hnpos];
    [apply rbind_ok in E as (now & Enow & E) |]; injection E as <-
  end.
  - split; [intros _; exists now; split; [assumption | reflexivity] |].
    split; [intros Hle; lra |].
    intros Hnone. unfold get_num in Enow. rewrite Hnone in Enow. injection Enow as <-.
    split_min_max; norm_inv; lra.
  - split; [intros Hpos; lra |].
    split; intros _; split_min_max; norm_inv; lra.
Qed.

Lemma elapsed_time_indicator_witness :
  exists f, train_frame TestData.T1 = Ok f /\
  exists start_time : Q,
    get_num TestData.T1 "startTime" 0 = Ok start_time /\
    (0 < start_time ->
       exists now : Q,
         get_num TestData.T1 "now" start_time = Ok now /\
         p9 (indicators f) = py_min 1.0 ((now - start_time) / 1000.0 / 3600.0)) /\
    (start_time <= 0 -> p9 (indicators f) == 0) /\
    (TestData.T1 !! "now" = None -> p9 (indicators f) == 0).
Proof.
  destruct (elapsed_time_indicator TestData.T1) as [Hreturns Hp9].
  destruct Hreturns as [f E]; [vm_compute; reflexivity |].
  exists f. split; [exact E | exact (Hp9 f E)].
Defined.

(** *** The carried-forward state *)

Lemma save_frame_prev_speed (t : dict) (f : frame) :
  save_frame t f !! "prev_speed" = Some (VNum (speed_kmh f)).
Proof. unfold save_frame. rewrite lookup_insert_ne by done. apply lookup_insert_eq. Qed.

Lemma save_frame_prev_accel (t : dict) (f : frame) :
  save_frame t f !! "prev_accel" = Some (VNum (accel f)).
Proof. unfold save_frame. apply lookup_insert_eq. Qed.

Lemma save_frame_other (t : dict) (f : frame) (k : string) :
  k <> "prev_speed" -> k <> "prev_accel" -> save_frame t f !! k = t !! k.
Proof. intros H1 H2. unfold save_frame. by rewrite !lookup_insert_ne. Qed.

Lemma well_formed_save_frame (t : dict) (f : frame) :
  well_formed t = true -> well_formed (save_frame t f) = true.
Proof.
  unfold well_formed. intros H. apply andb_prop in H as [Hid Hnum].
  apply bool_decide_eq_true in Hid. apply andb_true_intro. split.
  - apply bool_decide_eq_true. by rewrite save_frame_other.
  - apply forallb_forall. intros k Hk.
    rewrite forallb_forall in Hnum. specialize (Hnum k Hk).
    unfold number_or_absent in *.
    destruct (decide (k = "prev_speed")) as [-> | H1];
      [by rewrite save_frame_prev_speed |].
    destruct (decide (k = "prev_accel")) as [-> | H2];
      [by rewrite save_frame_prev_accel |].
    by rewrite save_frame_other.
Qed.

Lemma train_loop_returns (trains : list loc) :
  forall results (h : heap),
    (forall l, l ∈ trains -> well_formed (h l) = true) ->
    exists res h', train_loop trains results h = (Ok res, h').
Proof.
  induction trains as [| l0 rest IH]; intros results h Hwf; cbn [train_loop].
  - eauto.
  - destruct (train_frame_returns (h l0)) as [f ->]; [apply Hwf; left |].
    apply IH. intros l Hl.
    destruct (decide (l0 = l)) as [-> | Hne].
    + rewrite fn_lookup_insert. apply well_formed_save_frame, Hwf. left.
    + rewrite fn_lookup_insert_ne by assumption. apply Hwf. by right.
Qed.

(** What a frame remembers of the snapshot it was computed from. *)
Lemma train_frame_reads (t : dict) (f : frame) :
  train_frame t = Ok f ->
  get_num t "speed" 0 = Ok (speed_kmh f) /\
  exists prev_speed : Q,
    get_num t "prev_speed" (speed_kmh f) = Ok prev_speed /\
    accel f = (speed_kmh f - prev_speed) / py_max 1.0 1.0.
Proof. intros H. frame_inv H. eauto. Qed.

(** The loop writes nothing but the two carried fields, and only in the
    snapshots of the list. *)
Lemma train_loop_frame (trains : list loc) :
  forall results (h h' : heap) res,
    train_loop trains results h = (Ok res, h') ->
    (forall l k, k <> "prev_speed" -> k <> "prev_accel" -> h' l !! k = h l !! k) /\
    (forall l, l ∉ trains -> h' l = h l).
Proof.
  induction trains as [| l0 rest IH]; intros results h h' res H; cbn [train_loop] in H.
  - injection H as _ <-. split; reflexivity.
  - destruct (train_frame (h l0)) as [f | e] eqn:E; [| discriminate].
    apply IH in H as [Hkeys Hout]. split.
    + intros l k Hs Ha. rewrite Hkeys by assumption.
      destruct (decide (l0 = l)) as [-> | Hne].
      * rewrite fn_lookup_insert. by apply save_frame_other.
      * by rewrite fn_lookup_insert_ne.
    + intros l Hl. apply not_elem_of_cons in Hl as [Hne Hl].
      rewrite Hout by assumption. by rewrite fn_lookup_insert_ne.
Qed.

Lemma get_num_ext (t t' : dict) (k : string) (d : Q) :
  t' !! k = t !! k -> get_num t' k d = get_num t k d.
Proof. unfold get_num. by intros ->. Qed.

(** What the loop leaves in a snapshot of the list: the speed it read,
    and the acceleration of the last iteration that visited it.  That
    iteration read the snapshot's own previous speed when it was the only
    visit, and the speed saved by the visit before it otherwise. *)
Lemma train_loop_carried (trains : list loc) :
  forall results (h h' : heap) res l,
    train_loop trains results h = (Ok res, h') ->
    l ∈ trains ->
    exists speed prev : Q,
      get_num (h l) "speed" 0 = Ok speed /\
      (if decide (count_occ Nat.eq_dec trains l = 1%nat)
       then get_num (h l) "prev_speed" speed = Ok prev
       else prev = speed) /\
      h' l !! "prev_speed" = Some (VNum speed) /\
      h' l !! "prev_accel" = Some (VNum ((speed - prev) / py_max 1.0 1.0)).
Proof.
  induction trains as [| l0 rest IH]; intros results h h' res l H Hin.
  - by apply elem_of_nil in Hin.
  - cbn [train_loop] in H.
    destruct (train_frame (h l0)) as [f | e] eqn:E; [| discriminate].
    destruct (train_frame_reads _ _ E) as (Hspeed & prev0 & Hprev0 & Haccel).
    destruct (decide (l ∈ rest)) as [Hrest | Hrest].
    + destruct (IH _ _ _ _ l H Hrest) as (speed & prev & Hs & Hp & Hps & Hpa).
      assert (Hs' : get_num (h l) "speed" 0 = Ok speed).
      { rewrite <- Hs. symmetry. apply get_num_ext.
        destruct (decide (l0 = l)) as [-> | Hne].
        - rewrite fn_lookup_insert. by apply save_frame_other.
        - by rewrite fn_lookup_insert_ne. }
      exists speed, prev. split; [exact Hs' |]. split; [| by split].
      cbn [count_occ]. destruct (Nat.eq_dec l0 l) as [-> | Hne].
      * assert (Hc : (0 < count_occ Nat.eq_dec rest l)%nat).
        { apply count_occ_In. by apply list_elem_of_In. }
        rewrite decide_False by lia.
        assert (speed = speed_kmh f) as -> by congruence.
        destruct (decide (count_occ Nat.eq_dec rest l = 1%nat)); [| exact Hp].
        unfold get_num in Hp. rewrite fn_lookup_insert, save_frame_prev_speed in Hp.
        congruence.
      * rewrite fn_lookup_insert_ne in Hp by assumption. exact Hp.
    + apply elem_of_cons in Hin as [-> | Hin]; [| contradiction].
      apply train_loop_frame in H as [_ Hout].
      exists (speed_kmh f), prev0. split; [exact Hspeed |].
      cbn [count_occ]. destruct (Nat.eq_dec l0 l0) as [_ | Hne]; [| contradiction].
      assert (Hc : count_occ Nat.eq_dec rest l0 = 0%nat).
      { apply count_occ_not_In. by rewrite <- list_elem_of_In. }
      rewrite decide_True by lia. split; [exact Hprev0 |].
      rewrite Hout by assumption. rewrite fn_lookup_insert.
      rewrite save_frame_prev_speed, save_frame_prev_accel, Haccel. by split.
Qed.

(** C6. A call on well-formed snapshots returns. After a call that
    returns, every snapshot of the list has [prev_speed] equal to its
    current speed and [prev_accel] equal to the acceleration the call
    computed for it (the last one, if the same snapshot object is listed
    more than once); no other key of any snapshot changes, and snapshots
    outside the list are untouched. *)
Theorem carried_state_is_the_only_mutation (trains : list loc) (h : heap) :
  ((forall l, l ∈ trains -> well_formed (h l) = true) ->
   exists res h', compute_train_parameters trains h = (Ok res, h')) /\
  (forall (res : list (value Q * parameters)) (h' : heap),
     compute_train_parameters trains h = (Ok res, h') ->
     (forall l, l ∈ trains ->
        exists speed prev : Q,
          get_num (h l) "speed" 0 = Ok speed /\
          (if decide (count_occ Nat.eq_dec trains l = 1%nat)
           then get_num (h l) "prev_speed" speed = Ok prev
           else prev = speed) /\
          h' l !! "prev_speed" = Some (VNum speed) /\
          h' l !! "prev_accel" = Some (VNum ((speed - prev) / py_max 1.0 1.0))) /\
     (forall l k, k <> "prev_speed" -> k <> "prev_accel" -> h' l !! k = h l !! k) /\
     (forall l, l ∉ trains -> h' l = h l)).
Proof.
  unfold compute_train_parameters. split; [apply train_loop_returns |].
  intros res h' H. split.
  - intros l Hl. by eapply train_loop_carried.
  - by eapply train_loop_frame.
Qed.

Lemma carried_state_is_the_only_mutation_witness :
  exists res h',
    compute_train_parameters [0%nat; 1%nat] TestData.store = (Ok res, h') /\
    (forall l, l ∈ [0%nat; 1%nat] ->
       exists speed prev : Q,
         get_num (TestData.store l) "speed" 0 = Ok speed /\
         (if decide (count_occ Nat.eq_dec [0%nat; 1%nat] l = 1%nat)
          then get_num (TestData.store l) "prev_speed" speed = Ok prev
          else prev = speed) /\
         h' l !! "prev_speed" = Some (VNum speed) /\
         h' l !! "prev_accel" = Some (VNum ((speed - prev) / py_max 1.0 1.0))) /\
    (forall l k, k <> "prev_speed" -> k <> "prev_accel" ->
       h' l !! k = TestData.store l !! k) /\
    (forall l, l ∉ [0%nat; 1%nat] -> h' l = TestData.store l).
Proof.
  destruct (carried_state_is_the_only_mutation [0%nat; 1%nat] TestData.store)
    as [Hreturns Hstate].
  destruct Hreturns as (res & h' & E).
  { intros l _. destruct l; vm_compute; reflexivity. }
  exists res, h'. split; [exact E | exact (Hstate res h' E)].
Defined.

End KinematicsProps.


(** ** Great-circle distance *)

Module GeodesyProps.
Import Geodesy Scenarios.
Local Open Scope R_scope.


(** Along the prime meridian the haversine distance is the arc length. *)
Lemma haversine_meridian (d : R) :
  0 <= d <= 6371000 ->
  haversine 0 0 (north_of_origin d) 0 = d.
Proof.
  intros [Hlo Hhi]. unfold haversine, radians, north_of_origin.
  pose proof PI_RGT_0 as Hpi. pose proof PI2_1 as Hpi2.
  replace ((d / 6371000 * (180 / PI) - 0) * (PI / 180) / 2) with (d / 12742000)
    by (field; lra).
  replace ((0 - 0) * (PI / 180) / 2) with 0 by field.
  rewrite sin_0.
  replace (sin (d / 12742000) ^ 2 + cos (0 * (PI / 180)) *
           cos (d / 6371000 * (180 / PI) * (PI / 180)) * 0 ^ 2)
    with (sin (d / 12742000) ^ 2) by ring.
  assert (Hx : 0 <= d / 12742000 <= 1 / 2) by (split; lra).
  rewrite sqrt_pow2.
  - rewrite asin_sin by lra. field.
  - apply sin_ge_0; lra.
Qed.

End GeodesyProps.

(** ** Collision arbitration *)

Module ArbitrationProps.
Import PyR Geodesy Arbitration Scenarios GeodesyProps.
Local Open Scope R_scope.

Lemma py_gt_num (x y : R) : py_gt (VNum x) (VNum y) = Ok (if Rlt_dec y x then true else false).
Proof. reflexivity. Qed.

(** Reading the four coordinates of a pair of well-formed trains. *)
Ltac read_fields :=
  unfold decide_collision_action, item, as_num, get in *;
  repeat match goal with
  | H : ?d !! ?k = Some _ |- _ => rewrite !H in *; clear H
  end;
  cbn [rbind].

(** C1. Fewer than two trains give [NO_ACTION]. For two trains (the first
    two of the list) with numeric coordinates: a haversine separation of
    at most 35 m gives [STOP_BOTH] with reason "Critical proximity",
    whatever the priorities and speeds; beyond 35 m, equal priorities and
    equal speeds give [STOP_BOTH], a strictly higher priority passes and
    the other train stops, and on equal priorities the strictly faster
    train passes and the other stops. In particular 34 m gives
    [STOP_BOTH], and 1000 m with priorities (2, 1) stops the priority-1
    train. *)
Theorem decide_collision_action_spec :
  (forall trains : list dict,
     (length trains < 2)%nat -> decide_collision_action trains = Ok NO_ACTION) /\
  (forall (A B : dict) (rest : list dict) (latA lonA latB lonB : R),
     A !! "lat" = Some (VNum latA) -> A !! "lon" = Some (VNum lonA) ->
     B !! "lat" = Some (VNum latB) -> B !! "lon" = Some (VNum lonB) ->
     let dist := haversine latA lonA latB lonB in
     let r := decide_collision_action (A :: B :: rest) in
     (dist <= 35 -> r = Ok (STOP_BOTH "Critical proximity")) /\
     (dist = 34 -> r = Ok (STOP_BOTH "Critical proximity")) /\
     (forall (prA prB : R) (idA idB : value R),
        35 < dist ->
        get A "priority" (VNum 1) = VNum prA -> get B "priority" (VNum 1) = VNum prB ->
        A !! "id" = Some idA -> B !! "id" = Some idB ->
        (prB < prA -> r = Ok (STOP_ONE idB idA "Train A higher priority")) /\
        (prA < prB -> r = Ok (STOP_ONE idA idB "Train B higher priority")) /\
        (dist = 1000 -> prA = 2 -> prB = 1 ->
         r = Ok (STOP_ONE idB idA "Train A higher priority")) /\
        (forall sA sB : R,
           get A "speed" (VNum 0) = VNum sA -> get B "speed" (VNum 0) = VNum sB ->
           prA = prB ->
           (sA = sB -> r = Ok (STOP_BOTH "Same speed & priority")) /\
           (sB < sA -> r = Ok (STOP_ONE idB idA "Train A faster")) /\
           (sA < sB -> r = Ok (STOP_ONE idA idB "Train B faster"))))).
Proof.
  split.
  - intros [| A [| B rest]] Hlen; try reflexivity. simpl in Hlen. lia.
  - intros A B rest latA lonA latB lonB HlatA HlonA HlatB HlonB dist r.
    assert (Hnear : dist <= 35 -> r = Ok (STOP_BOTH "Critical proximity")).
    { intros Hd. subst r dist. read_fields.
      destruct (Rle_dec _ 35) as [_ | Hn]; [reflexivity | contradiction]. }
    split; [exact Hnear |]. split; [intros Hd; apply Hnear; lra |].
    intros prA prB idA idB Hfar HprA HprB HidA HidB.
    assert (Hstep : r =
      (a_higher <- py_gt (VNum prA) (VNum prB) ;;
       if a_higher : bool then Ok (STOP_ONE idB idA "Train A higher priority")
       else
         b_higher <- py_gt (VNum prB) (VNum prA) ;;
         if b_higher : bool then Ok (STOP_ONE idA idB "Train B higher priority")
         else
           a_faster <- py_gt (get A "speed" (VNum 0)) (get B "speed" (VNum 0)) ;;
           if a_faster : bool then Ok (STOP_ONE idB idA "Train A faster")
           else
             b_faster <- py_gt (get B "speed" (VNum 0)) (get A "speed" (VNum 0)) ;;
             if b_faster : bool then Ok (STOP_ONE idA idB "Train B faster")
             else Ok (STOP_BOTH "Same speed & priority"))%py).
    { subst r dist. unfold decide_collision_action.
      rewrite <- HprA, <- HprB. unfold item, as_num.
      rewrite HlatA, HlonA, HlatB, HlonB, HidA, HidB. cbn [rbind].
      destruct (Rle_dec _ 35) as [Hle | _]; [lra | reflexivity]. }
    rewrite Hstep. rewrite !py_gt_num. cbn [rbind].
    assert (Ha : prB < prA -> (if Rlt_dec prB prA then true else false) = true).
    { intros. destruct (Rlt_dec prB prA); [reflexivity | contradiction]. }
    split; [intros Hlt; by rewrite Ha |].
    split.
    { intros Hlt. destruct (Rlt_dec prB prA); [lra |].
      destruct (Rlt_dec prA prB); [reflexivity | contradiction]. }
    split; [intros _ -> ->; rewrite Ha by lra; reflexivity |].
    intros sA sB -> -> ->.
    destruct (Rlt_dec prB prB); [lra |]. rewrite !py_gt_num. cbn [rbind].
    repeat split; intros Hs; repeat destruct (Rlt_dec _ _); try reflexivity; lra.
Qed.

Lemma decide_collision_action_spec_witness :
  decide_collision_action [] = Ok NO_ACTION /\
  decide_collision_action
    [train_at "T1" 0 0 2 100; train_at "T2" (north_of_origin 34) 0 1 80]
  = Ok (STOP_BOTH "Critical proximity") /\
  decide_collision_action
    [train_at "T1" 0 0 2 100; train_at "T2" (north_of_origin 1000) 0 1 80]
  = Ok (STOP_ONE (VStr "T2") (VStr "T1") "Train A higher priority") /\
  decide_collision_action
    [train_at "T1" 0 0 1 80; train_at "T2" (north_of_origin 1000) 0 1 100]
  = Ok (STOP_ONE (VStr "T1") (VStr "T2") "Train B faster").
Proof.
  destruct decide_collision_action_spec as [Hfew Htwo].
  split; [apply Hfew; simpl; lia |].
  split; [| split].
  - destruct (Htwo (train_at "T1" 0 0 2 100) (train_at "T2" (north_of_origin 34) 0 1 80)
                   [] 0 0 (north_of_origin 34) 0 eq_refl eq_refl eq_refl eq_refl)
      as (_ & H34 & _).
    apply H34. apply haversine_meridian. lra.
  - destruct (Htwo (train_at "T1" 0 0 2 100) (train_at "T2" (north_of_origin 1000) 0 1 80)
                   [] 0 0 (north_of_origin 1000) 0 eq_refl eq_refl eq_refl eq_refl)
      as (_ & _ & Hfar).
    assert (Hd : haversine 0 0 (north_of_origin 1000) 0 = 1000)
      by (apply haversine_meridian; lra).
    destruct (Hfar 2 1 (VStr "T1") (VStr "T2")) as (_ & _ & H1000 & _);
      try reflexivity; [rewrite Hd; lra |].
    apply H1000; [exact Hd | reflexivity | reflexivity].
  - destruct (Htwo (train_at "T1" 0 0 1 80) (train_at "T2" (north_of_origin 1000) 0 1 100)
                   [] 0 0 (north_of_origin 1000) 0 eq_refl eq_refl eq_refl eq_refl)
      as (_ & _ & Hfar).
    assert (Hd : haversine 0 0 (north_of_origin 1000) 0 = 1000)
      by (apply haversine_meridian; lra).
    destruct (Hfar 1 1 (VStr "T1") (VStr "T2")) as (_ & _ & _ & Hspeed);
      try reflexivity; [rewrite Hd; lra |].
    destruct (Hspeed 80 100) as (_ & _ & Hslow); try reflexivity.
    apply Hslow. lra.
Defined.

End ArbitrationProps.

(** ** Track segmentation *)

Module SegmenterProps.
Import PyR Segmenter Scenarios GeodesyProps.
Local Open Scope R_scope.

Section Segments.

Context {Env : Type}.
Variable generate_segment_environment : string -> R -> Env.
Variable haversine : R -> R -> R -> R -> R.

(** C7. For an edge whose two stations are known, with numeric
    coordinates, and a non-zero segment length, [segment_track] returns
    exactly [max(1, floor(total_distance / segment_length))] segments;
    segment [i] runs from fraction [i/n] to fraction [(i+1)/n] of the
    straight line between the endpoints, is named [u-v-i], and carries the
    environment generated for that name. A 250 m edge cut every 100 m has
    2 segments. *)
Theorem segment_track_spec (stations : gmap string dict) (u v : string) (A B : dict)
    (lat1 lon1 lat2 lon2 segment_length : R) :
  stations !! u = Some A -> stations !! v = Some B ->
  A !! "lat" = Some (VNum lat1) -> A !! "lon" = Some (VNum lon1) ->
  B !! "lat" = Some (VNum lat2) -> B !! "lon" = Some (VNum lon2) ->
  segment_length <> 0 ->
  let total_dist := haversine lat1 lon1 lat2 lon2 in
  let n := Z.max 1 (Zfloor (total_dist / segment_length)) in
  exists segs : list (segment Env),
    segment_track Env generate_segment_environment haversine stations u v segment_length
    = Ok segs /\
    length segs = Z.to_nat n /\
    (forall i : nat, (i < Z.to_nat n)%nat ->
       let name := (u +:+ "-" +:+ v +:+ "-" +:+ pretty i)%string in
       segs !! i =
       Some {| id := name;
               start := {| lat := lat1 + (lat2 - lat1) * (INR i / IZR n);
                           lon := lon1 + (lon2 - lon1) * (INR i / IZR n) |};
               end_ := {| lat := lat1 + (lat2 - lat1) * ((INR i + 1) / IZR n);
                          lon := lon1 + (lon2 - lon1) * ((INR i + 1) / IZR n) |};
               env := generate_segment_environment name segment_length |}) /\
    (total_dist = 250 -> segment_length = 100 -> length segs = 2%nat).
Proof.
  intros Hu Hv HlatA HlonA HlatB HlonB HL total_dist n.
  unfold segment_track, station, item, as_num, floordiv.
  rewrite Hu, Hv. cbn [rbind]. rewrite HlatA, HlonA, HlatB, HlonB. cbn [rbind].
  destruct (Req_dec_T segment_length 0) as [HL0 | _]; [contradiction |]. cbn [rbind].
  fold total_dist. fold n.
  eexists. split; [reflexivity |].
  assert (Hlen : length (map (make_segment Env generate_segment_environment u v
                                lat1 lon1 lat2 lon2 segment_length n)
                             (seq 0 (Z.to_nat n))) = Z.to_nat n).
  { by rewrite length_map, length_seq. }
  split; [exact Hlen |]. split.
  - intros i Hi. cbv zeta.
    change (map ?f ?l) with (f <$> l).
    rewrite list_lookup_fmap, lookup_seq_lt by assumption. reflexivity.
  - intros Hd HL100. rewrite Hlen. subst n. rewrite Hd, HL100.
    rewrite (Zfloor_eq 2); [reflexivity | lra].
Qed.

End Segments.

Lemma segment_track_spec_witness :
  exists segs : list (segment unit),
    segment_track unit (fun _ _ => tt) Geodesy.haversine two_stations "DEL" "NDLS" 100
    = Ok segs /\
    length segs = 2%nat.
Proof.
  destruct (segment_track_spec (fun _ _ => tt) Geodesy.haversine two_stations "DEL" "NDLS"
              (station_at 0 0) (station_at (north_of_origin 250) 0)
              0 0 (north_of_origin 250) 0 100
              eq_refl eq_refl eq_refl eq_refl eq_refl eq_refl)
    as (segs & Hrun & _ & _ & H250).
  - lra.
  - exists segs. split; [exact Hrun |].
    apply H250; [apply haversine_meridian; lra | reflexivity].
Defined.

End SegmenterProps.

(** ** Station capacity: further properties *)

Module StationMore.
Import Station PyQFacts.
Local Open Scope Q_scope.

(** The adhesion the formula really divides by. *)
Lemma effective_mu_positive (mu : Q) : 0 < (if Qle_bool mu 0 then 0.25 else mu).
Proof. destruct (Qle_bool_reflect mu 0); [reflexivity | lra]. Qed.

Lemma braking_denominator_positive (mu : Q) :
  0 < 2.0 * (if Qle_bool mu 0 then 0.25 else mu) * G.
Proof.
  pose proof (effective_mu_positive mu) as H.
  set (m := if Qle_bool mu 0 then 0.25 else mu) in *. clearbody m.
  unfold G. nra.
Qed.

Lemma Qdiv_le_mono (a b d : Q) : 0 < d -> a <= b -> a / d <= b / d.
Proof.
  intros Hd Hab. unfold Qdiv. apply Qmult_le_compat_r; [exact Hab |].
  apply Qlt_le_weak, Qinv_lt_0_compat, Hd.
Qed.

(** X1. The braking distance is never negative, does not depend on the
    direction of travel, and a non-positive adhesion coefficient is
    replaced by 0.25 instead of dividing by zero or giving a negative
    distance. *)
Theorem braking_distance_safe (v_kmh mu : Q) :
  0 <= braking_distance v_kmh mu /\
  braking_distance (- v_kmh) mu == braking_distance v_kmh mu /\
  (mu <= 0 -> braking_distance v_kmh mu = braking_distance v_kmh 0.25).
Proof.
  unfold braking_distance, kmh_to_mps. split; [| split].
  - apply Qle_shift_div_l; [apply braking_denominator_positive |].
    pose proof (Qsqr_nonneg (v_kmh / 3.6)) as H. simpl in H. lra.
  - assert (E : - v_kmh / 3.6 * (- v_kmh / 3.6) == v_kmh / 3.6 * (v_kmh / 3.6)) by field.
    rewrite E. reflexivity.
  - intros Hmu. destruct (Qle_bool_reflect mu 0); [reflexivity | contradiction].
Qed.

Lemma braking_distance_safe_witness :
  braking_distance 80 (-1) = braking_distance 80 0.25.
Proof. apply (braking_distance_safe 80 (-1)). vm_compute. discriminate. Defined.

(** X2. For a non-negative reaction time and margin factor the total
    stopping distance is non-negative and grows with the approach speed. *)
Theorem total_stopping_distance_monotone (v1 v2 mu reaction_time_s margin_factor : Q) :
  0 <= reaction_time_s -> 0 <= margin_factor -> 0 <= v1 -> v1 <= v2 ->
  0 <= total_stopping_distance v1 mu reaction_time_s margin_factor /\
  total_stopping_distance v1 mu reaction_time_s margin_factor
  <= total_stopping_distance v2 mu reaction_time_s margin_factor.
Proof.
  intros Hrt Hm Hv1 Hv12.
  unfold total_stopping_distance, braking_distance, reaction_distance, kmh_to_mps.
  pose proof (braking_denominator_positive mu) as Hd.
  set (d := 2.0 * (if Qle_bool mu 0 then 0.25 else mu) * G) in *. clearbody d.
  assert (Hw1 : 0 <= v1 / 3.6) by (apply Qle_shift_div_l; [reflexivity | lra]).
  assert (Hw12 : v1 / 3.6 <= v2 / 3.6) by (apply Qdiv_le_mono; [reflexivity | exact Hv12]).
  set (w1 := v1 / 3.6) in *. set (w2 := v2 / 3.6) in *. clearbody w1 w2.
  assert (Hb1 : 0 <= w1 * w1 / d) by (apply Qle_shift_div_l; [exact Hd | nra]).
  assert (Hb12 : w1 * w1 / d <= w2 * w2 / d) by (apply Qdiv_le_mono; [exact Hd | nra]).
  set (b1 := w1 * w1 / d) in *. set (b2 := w2 * w2 / d) in *. clearbody b1 b2.
  assert (Hr1 : 0 <= w1 * reaction_time_s) by (apply Qmult_le_0_compat; assumption).
  assert (Hr12 : w1 * reaction_time_s <= w2 * reaction_time_s)
    by (apply Qmult_le_compat_r; assumption).
  split.
  - apply Qmult_le_0_compat; [lra | exact Hm].
  - apply Qmult_le_compat_r; [lra | exact Hm].
Qed.

Lemma total_stopping_distance_monotone_witness :
  0 <= total_stopping_distance 60 0.35 1.5 1.0 /\
  total_stopping_distance 60 0.35 1.5 1.0 <= total_stopping_distance 80 0.35 1.5 1.0.
Proof.
  apply (total_stopping_distance_monotone 60 80 0.35 1.5 1.0); vm_compute; discriminate.
Defined.

(** X3. In the result of [compute_station_parameters], when the clearance
    time [avg_dwell_s + safety_buffer_s] is positive the capacity is
    finite and capacity times clearance time is 3600 s for each platform
    counted ([max(1, num_platforms)]); the clearance entry is that sum. *)
Theorem capacity_times_clearance sl pl (n : Z) atl rate dwell v mu rt buffer cv margin :
  0 < dwell + buffer ->
  let r := compute_station_parameters sl pl n atl rate dwell v mu rt buffer cv margin in
  sp_min_clearance_time_s r = dwell + buffer /\
  exists c : Q,
    sp_station_capacity_trains_per_hr r = Fin c /\
    c * sp_min_clearance_time_s r == 3600 * inject_Z (Z.max 1 n) /\
    0 < c.
Proof.
  intros Hpos r. subst r. cbn [compute_station_parameters sp_min_clearance_time_s
                               sp_station_capacity_trains_per_hr].
  split; [reflexivity |].
  unfold station_capacity, capacity_per_platform.
  destruct (Qle_bool_reflect (dwell + buffer) 0) as [Hle | _]; [lra |].
  cbn [fmul_fin]. eexists. split; [reflexivity |].
  assert (Hn : 0 < inject_Z (Z.max 1 n)).
  { change 0 with (inject_Z 0). rewrite <- Zlt_Qlt. lia. }
  split; [field; lra |].
  apply Qmult_lt_0_compat; [| exact Hn].
  apply Qlt_shift_div_l; [exact Hpos | lra].
Qed.

Lemma capacity_times_clearance_witness :
  exists c : Q,
    sp_station_capacity_trains_per_hr
      (compute_station_parameters 400.0 250.0 2 200.0 4.0 150.0 80.0 0.35 1.5 30.0 1.0 1.0)
    = Fin c /\ 0 < c.
Proof.
  destruct (capacity_times_clearance 400.0 250.0 2 200.0 4.0 150.0 80.0 0.35 1.5 30.0 1.0 1.0)
    as (_ & c & Hc & _ & Hpos); [reflexivity |].
  exists c. split; [exact Hc | exact Hpos].
Defined.

(** X4. The overall platform utilisation is the single-platform
    utilisation shared among [max(1, num_platforms)] platforms, so with a
    non-negative arrival rate and dwell time it never exceeds it; the
    conflict risk index is never negative. *)
Theorem utilisation_shared sl pl (n : Z) atl rate dwell v mu rt buffer cv margin :
  let r := compute_station_parameters sl pl n atl rate dwell v mu rt buffer cv margin in
  sp_platform_utilization_overall r * inject_Z (Z.max 1 n)
  == sp_platform_utilization_single r /\
  0 <= sp_conflict_risk_index r /\
  (0 <= rate -> 0 <= dwell ->
   0 <= sp_platform_utilization_overall r <= sp_platform_utilization_single r).
Proof.
  intros r. subst r.
  cbn [compute_station_parameters sp_platform_utilization_overall
       sp_platform_utilization_single sp_conflict_risk_index].
  assert (Hn : 1 <= inject_Z (Z.max 1 n)).
  { change 1 with (inject_Z 1). rewrite <- Zle_Qle. lia. }
  set (m := inject_Z (Z.max 1 n)) in *. clearbody m.
  set (u := platform_utilization rate dwell).
  split; [field; lra |]. split.
  - unfold risk_index_from_utilization.
    pose proof (Qsqr_nonneg (u / m)) as H1. pose proof (Qsqr_nonneg cv) as H2.
    simpl in H2. set (s := (u / m) ^ 2) in *. clearbody s. nra.
  - intros Hr Hd.
    assert (Hu : 0 <= u).
    { subst u. unfold platform_utilization.
      apply Qle_shift_div_l; [reflexivity | nra]. }
    clearbody u. split.
    + apply Qle_shift_div_l; lra.
    + apply Qle_shift_div_r; [lra | nra].
Qed.

Lemma utilisation_shared_witness :
  let r := compute_station_parameters 400.0 250.0 2 200.0 4.0 150.0 80.0 0.35 1.5 30.0 1.0 1.0 in
  0 <= sp_platform_utilization_overall r <= sp_platform_utilization_single r.
Proof.
  apply (utilisation_shared 400.0 250.0 2 200.0 4.0 150.0 80.0 0.35 1.5 30.0 1.0 1.0);
    vm_compute; discriminate.
Defined.



End StationMore.

(** ** Track risk: further properties *)

Module TrackRiskMore.
Import PyQ PyQFacts TrackRisk Ranges.
Local Open Scope Q_scope.

(** *** The seed *)

Lemma be_bytes_are_bytes (n : nat) : forall x, Forall is_byte (SHA256.be_bytes n x).
Proof.
  induction n as [| n IH]; intros x; cbn [SHA256.be_bytes]; [constructor |].
  apply Forall_app. split; [apply IH |].
  repeat constructor; apply Z.mod_pos_bound; lia.
Qed.

Lemma digest_bytes (msg : list Z) : Forall is_byte (SHA256.digest msg).
Proof.
  unfold SHA256.digest.
  generalize (fold_left SHA256.compress
                (SHA256.blocks_of_words
                   (length (SHA256.words_of_bytes (length (SHA256.pad msg)) (SHA256.pad msg)))
                   (SHA256.words_of_bytes (length (SHA256.pad msg)) (SHA256.pad msg)))
                SHA256.H0).
  intros hs. induction hs as [| h hs IH]; cbn [map concat]; [constructor |].
  apply Forall_app. split; [apply be_bytes_are_bytes | exact IH].
Qed.

Lemma from_be_bytes_bound (bs : list Z) :
  Forall is_byte bs ->
  forall acc k, (0 <= acc < 256 ^ Z.of_nat k)%Z ->
  (0 <= fold_left (fun acc b => acc * 256 + b) bs acc < 256 ^ Z.of_nat (k + length bs))%Z.
Proof.
  induction 1 as [| b bs Hb Hbs IH]; intros acc k Hacc; cbn [fold_left length].
  - by rewrite Nat.add_0_r.
  - replace (k + S (length bs))%nat with (S k + length bs)%nat by lia.
    apply IH. unfold is_byte in Hb.
    rewrite Nat2Z.inj_succ, Z.pow_succ_r by lia. lia.
Qed.

Lemma seed_range (s : string) : (0 <= _seed_from_str s < 2 ^ 64)%Z.
Proof.
  unfold _seed_from_str, SHA256.from_be_bytes.
  set (bs := firstn 8 (SHA256.digest (SHA256.bytes_of_string s))).
  assert (Hb : Forall is_byte bs) by (apply Forall_take, digest_bytes).
  assert (Hl : (length bs <= 8)%nat) by (subst bs; rewrite length_take; lia).
  pose proof (from_be_bytes_bound bs Hb 0%Z 0%nat ltac:(simpl; lia)) as [Hlo Hhi].
  split; [exact Hlo |].
  eapply Z.lt_le_trans; [exact Hhi |].
  change (2 ^ 64)%Z with (256 ^ 8)%Z. apply Z.pow_le_mono_r; lia.
Qed.

Lemma rand_range (seed_int : Z) : 0 <= _rand_from_seed_int seed_int < 1.
Proof.
  unfold _rand_from_seed_int.
  pose proof (Z.mod_pos_bound seed_int 1000003 eq_refl) as [Hlo Hhi].
  assert (H0 : 0 <= inject_Z (seed_int mod 1000003))
    by (change 0 with (inject_Z 0); by rewrite <- Zle_Qle).
  assert (H1 : inject_Z (seed_int mod 1000003) < 1000003)
    by (change 1000003 with (inject_Z 1000003); by rewrite <- Zlt_Qlt).
  split.
  - apply Qle_shift_div_l; [reflexivity | lra].
  - apply Qlt_shift_div_r; [reflexivity | lra].
Qed.

(** X6. The seed of an edge identity is a 64-bit unsigned integer, and
    the pseudo-random draw made from any integer lies in [0, 1). *)
Theorem seed_and_draw_ranges (s : string) (seed_int : Z) :
  (0 <= _seed_from_str s < 2 ^ 64)%Z /\
  0 <= _rand_from_seed_int (_seed_from_str s) < 1 /\
  0 <= _rand_from_seed_int seed_int < 1.
Proof. split; [apply seed_range |]. split; apply rand_range. Qed.

(** *** Edge metrics *)

Lemma bits_range (seed k m : Z) : (0 < m)%Z -> 0 <= bits seed k m <= inject_Z (m - 1).
Proof.
  intros Hm. unfold bits.
  pose proof (Z.mod_pos_bound (Z.shiftr seed k) m Hm) as [Hlo Hhi].
  split.
  - change 0 with (inject_Z 0). by rewrite <- Zle_Qle.
  - rewrite <- Zle_Qle. lia.
Qed.

Lemma clamp01_bounds (v : Q) : 0 <= _clamp01 v <= 1.
Proof. unfold _clamp01, _clamp. pose proof (clamp_range 0.0 1.0 v). lra. Qed.

Lemma clamp01_id (v : Q) : 0 <= v <= 1 -> _clamp01 v == v.
Proof.
  intros [Hlo Hhi]. unfold _clamp01, _clamp.
  destruct (py_min_cases 1.0 v) as [[? ->] | [? ->]];
  match goal with
  | |- py_max ?a ?b == _ => destruct (py_max_cases a b) as [[? ->] | [? ->]]
  end; lra.
Qed.

Lemma clamp01_le (v c : Q) : 0 <= c -> v <= c -> _clamp01 v <= c.
Proof.
  intros Hc Hv. unfold _clamp01, _clamp.
  destruct (py_min_cases 1.0 v) as [[? ->] | [? ->]];
  match goal with
  | |- py_max ?a ?b <= _ => destruct (py_max_cases a b) as [[? ->] | [? ->]]
  end; lra.
Qed.

Lemma edge_speed_bounds (edge_id : string) (distance_km : Q) :
  40 <= max_allowed_speed_kmh (compute_edge_metrics edge_id distance_km) <= 200.
Proof.
  unfold compute_edge_metrics. cbn [max_allowed_speed_kmh].
  generalize (_seed_from_str edge_id). intros seed.
  repeat match goal with
  | |- context [_clamp01 ?v] =>
      let c := fresh "c" in
      pose proof (clamp01_bounds v); set (c := _clamp01 v) in *; clearbody c
  end.
  match goal with
  | |- _ <= py_max ?a ?b <= _ => destruct (py_max_cases a b) as [[? ->] | [? ->]]
  end; lra.
Qed.

(** X7. Every normalised metric of an edge lies in [0, 1], whatever the
    edge identity and the distance (negative or huge distances included),
    and the switch density is at most 0.8. *)
Theorem edge_metrics_normalised (edge_id : string) (distance_km : Q) :
  let m := compute_edge_metrics edge_id distance_km in
  (0 <= track_condition m <= 1) /\ (0 <= curve_severity m <= 1) /\
  (0 <= gradient_index m <= 1) /\ (0 <= track_age m <= 1) /\
  (0 <= switch_count_norm m <= 0.8) /\ (0 <= drainage_risk m <= 1) /\
  (0 <= ballast_condition m <= 1) /\ (0 <= embankment_susceptibility m <= 1) /\
  (0 <= electrification_health m <= 1) /\ (0 <= switch_condition m <= 1).
Proof.
  intros m. subst m. unfold compute_edge_metrics.
  cbn [track_condition curve_severity gradient_index track_age switch_count_norm
       drainage_risk ballast_condition embankment_susceptibility
       electrification_health switch_condition].
  repeat apply conj; try apply clamp01_bounds.
  apply clamp01_le; [vm_compute; discriminate |].
  pose proof (bits_range (_seed_from_str edge_id) 29 5 eq_refl) as [_ H].
  change (inject_Z (5 - 1)) with 4 in H.
  set (b := bits (_seed_from_str edge_id) 29 5) in *. clearbody b.
  apply Qle_shift_div_r; [reflexivity | lra].
Qed.

End TrackRiskMore.

(** ** Network aggregation: further properties *)

Module AggregatorMore.
Import PyQ PyQFacts TrackRisk Ranges TrackRiskMore MoreTestData.
Local Open Scope Q_scope.

Lemma edge_metrics_normalised_aux (edge_id : string) (distance_km : Q) :
  (0 <= curve_severity (compute_edge_metrics edge_id distance_km) <= 1) /\
  (0 <= ballast_condition (compute_edge_metrics edge_id distance_km) <= 1).
Proof. split; apply clamp01_bounds. Qed.

(** *** When the aggregation raises *)

Lemma station_ids_returns (stations : list dict) :
  Forall (fun s => is_Some (s !! "id")) stations ->
  exists ids, station_ids stations = Ok ids.
Proof.
  induction 1 as [| s rest [i Hi] _ [ids IH]]; cbn [station_ids]; [eauto |].
  unfold station_id. rewrite Hi. cbn [rbind]. rewrite IH. cbn [rbind]. eauto.
Qed.

Lemma station_ids_raises (stations : list dict) :
  Exists (fun s => s !! "id" = None) stations ->
  station_ids stations = Raise KeyError.
Proof.
  induction 1 as [s rest Hs | s rest _ IH]; cbn [station_ids]; unfold station_id.
  - by rewrite Hs.
  - destruct (s !! "id"); [| reflexivity]. cbn [rbind]. by rewrite IH.
Qed.

Lemma aggregation_returns (hypot : Q -> Q -> Q)
    (stations : list dict) (e : edge) (edges : list edge) (default_segment_km : Q) :
  Forall (fun s => is_Some (s !! "id")) (firstn 5 stations) ->
  exists ps, compute_track_parameters hypot stations (e :: edges) default_segment_km
             = Ok ps.
Proof.
  unfold compute_track_parameters. intros H.
  destruct (station_ids_returns _ H) as [ids ->]. cbn [rbind]. eauto.
Qed.

(** X8. With at least one edge, [compute_track_parameters] returns
    when each of the first five stations has an ["id"], and raises
    [KeyError] when one of them has none; stations after the fifth, the
    coordinates of all of them and the contents of the edges never make
    it raise. *)
Theorem aggregation_raises_only_on_first_five (hypot : Q -> Q -> Q)
    (stations : list dict) (e : edge) (edges : list edge) (default_segment_km : Q) :
  (Forall (fun s => is_Some (s !! "id")) (firstn 5 stations) ->
   exists ps, compute_track_parameters hypot stations (e :: edges) default_segment_km
              = Ok ps) /\
  (Exists (fun s => s !! "id" = None) (firstn 5 stations) ->
   compute_track_parameters hypot stations (e :: edges) default_segment_km
   = Raise KeyError).
Proof.
  split; [apply aggregation_returns |].
  unfold compute_track_parameters. intros H. by rewrite (station_ids_raises _ H).
Qed.

Lemma test_stations_have_ids :
  Forall (fun s : dict => is_Some (s !! "id")) (firstn 5 MoreTestData.stations).
Proof.
  cbn [firstn MoreTestData.stations].
  repeat (constructor; [eexists; reflexivity |]). constructor.
Defined.

Lemma aggregation_raises_only_on_first_five_witness :
  (exists ps, compute_track_parameters taxicab MoreTestData.stations MoreTestData.edges 10.0
              = Ok ps) /\
  compute_track_parameters taxicab stations_without_id MoreTestData.edges 10.0
  = Raise KeyError.
Proof.
  split.
  - apply (aggregation_raises_only_on_first_five taxicab MoreTestData.stations
             {[ "source" := "DEL"; "target" := "GZB" ]}
             [ {[ "source" := "GZB"; "target" := "AGC" ]} ] 10.0).
    exact test_stations_have_ids.
  - apply (aggregation_raises_only_on_first_five taxicab stations_without_id
             {[ "source" := "DEL"; "target" := "GZB" ]}
             [ {[ "source" := "GZB"; "target" := "AGC" ]} ] 10.0).
    cbn [firstn stations_without_id]. apply Exists_cons_tl, Exists_cons_hd. reflexivity.
Defined.

(** *** What the accumulators keep *)

Lemma fold_left_counted {A B : Type} (f : A -> B -> A) (P : nat -> A -> Prop) (l : list B) :
  (forall k a e, P k a -> P (S k) (f a e)) ->
  forall k a, P k a -> P (k + length l)%nat (fold_left f l a).
Proof.
  intros Hstep. induction l as [| e l IH]; intros k a Ha; cbn [fold_left length].
  - by rewrite Nat.add_0_r.
  - replace (k + S (length l))%nat with (S k + length l)%nat by lia.
    apply IH, Hstep, Ha.
Qed.

Lemma count_succ (k : nat) : count (S k) == count k + 1.
Proof. unfold count. rewrite Nat2Z.inj_succ, <- Z.add_1_r, inject_Z_plus. reflexivity. Qed.

Lemma count_nonneg (k : nat) : 0 <= count k.
Proof. unfold count. change 0 with (inject_Z 0). rewrite <- Zle_Qle. lia. Qed.

Lemma count_positive (k : nat) : (0 < k)%nat -> 1 <= count k.
Proof. intros H. unfold count. change 1 with (inject_Z 1). rewrite <- Zle_Qle. lia. Qed.

Lemma sums_invariant_0 : sums_invariant 0 sums0.
Proof.
  unfold sums_invariant, sums0, count. cbn.
  repeat split; try (vm_compute; discriminate); try reflexivity. lia.
Qed.

Lemma sums_invariant_step (hypot : Q -> Q -> Q) (stations : list dict)
    (big : list (value Q)) (d : Q) (k : nat) (a : sums) (e : edge) :
  sums_invariant k a -> sums_invariant (S k) (edge_step hypot stations big d a e).
Proof.
  unfold sums_invariant.
  intros (Hc & Hl & Hb & Hu & Hp & Hm & _).
  unfold edge_step.
  cbn [sum_curve sum_lateral_clearance sum_ballast sum_ballast_uniform
       total_utilization_proxy max_speed_seen].
  match goal with
  | |- context [compute_edge_metrics ?i ?x] =>
      pose proof (edge_speed_bounds i x) as Hs;
      pose proof (edge_metrics_normalised_aux i x) as (Hcs & Hbc);
      set (em := compute_edge_metrics i x) in *; clearbody em
  end.
  pose proof (count_succ k) as Hk. set (n' := count (S k)) in *. clearbody n'.
  set (n := count k) in *. clearbody n.
  repeat split; try lra.
  - destruct (_ && _); lra.
  - destruct (_ && _); lra.
  - match goal with |- context [py_max ?x ?y] =>
      destruct (py_max_cases x y) as [[? ->] | [? ->]] end; lra.
  - match goal with |- context [py_max ?x ?y] =>
      destruct (py_max_cases x y) as [[? ->] | [? ->]] end; lra.
  - intros _. match goal with |- context [py_max ?x ?y] =>
      destruct (py_max_cases x y) as [[? ->] | [? ->]] end; lra.
Qed.

Lemma Ok_inj {A : Type} (a b : A) : Ok a = Ok b -> a = b.
Proof. congruence. Qed.

(** Open a successful run on a non-empty edge list: the result is the
    final dict over the folded sums [a], which satisfy the invariant for
    [n] edges. *)
Ltac open_aggregation H :=
  unfold compute_track_parameters in H;
  destruct (station_ids _) as [big |] eqn:Hbig; [| discriminate];
  cbn [rbind] in H; apply Ok_inj in H; subst;
  match goal with
  | |- context [fold_left (edge_step ?h ?st ?b ?d) ?l sums0] =>
      pose proof (fold_left_counted (edge_step h st b d) sums_invariant l
                    (sums_invariant_step h st b d) 0%nat sums0 sums_invariant_0) as Hinv;
      unfold sums_invariant in Hinv;
      pose proof (count_positive (0 + length l) ltac:(simpl; lia)) as Hn;
      change (inject_Z (Z.of_nat (length l))) with (count (0 + length l)) in *;
      set (a := fold_left (edge_step h st b d) l sums0) in *; clearbody a;
      set (n := count (0 + length l)) in *; clearbody n
  end.

(** X9. With at least one edge, a returning [compute_track_parameters]
    gives exactly the keys [p21] .. [p40], every value in [0, 1]; moreover
    the speed indicator p26 is at least 0.2, the utilisation p35 at least
    0.5, and the composite risk p40 at most 0.9. *)
Theorem track_parameters_ranges (hypot : Q -> Q -> Q) (stations : list dict)
    (e : edge) (edges : list edge) (default_segment_km : Q) (ps : gmap string Q) :
  compute_track_parameters hypot stations (e :: edges) default_segment_km = Ok ps ->
  dom ps = list_to_set parameter_names /\
  (forall k v, ps !! k = Some v -> 0 <= v <= 1) /\
  (exists v26 v35 v40,
     ps !! "p26" = Some v26 /\ ps !! "p35" = Some v35 /\ ps !! "p40" = Some v40 /\
     0.2 <= v26 /\ 0.5 <= v35 /\ v40 <= 0.9).
Proof.
  intros H. open_aggregation H.
  split; [by rewrite dom_list_to_map_L |].
  split.
  - intros k v Hk. apply elem_of_list_to_map_2 in Hk.
    repeat (apply elem_of_cons in Hk as [Hk | Hk];
            [injection Hk as -> ->; apply clamp01_bounds |]).
    by apply elem_of_nil in Hk.
  - destruct Hinv as (_ & _ & _ & _ & Hp & Hm & Hm40).
    specialize (Hm40 ltac:(simpl; lia)).
    eexists _, _, _. repeat (split; [reflexivity |]).
    split; [| split].
    + unfold _normalize_speed_kmh. rewrite clamp01_id.
      * apply Qle_shift_div_l; [reflexivity | lra].
      * split; [apply Qle_shift_div_l | apply Qle_shift_div_r]; try reflexivity; lra.
    + rewrite clamp01_id.
      * apply Qle_shift_div_l; lra.
      * split; [apply Qle_shift_div_l | apply Qle_shift_div_r]; lra.
    + apply clamp01_le; [vm_compute; discriminate |].
      repeat match goal with
      | |- context [_clamp01 ?v] =>
          let c := fresh "c" in
          pose proof (clamp01_bounds v); set (c := _clamp01 v) in *; clearbody c
      end.
      lra.
Qed.

Lemma track_parameters_ranges_witness :
  exists ps : gmap string Q,
    compute_track_parameters taxicab MoreTestData.stations MoreTestData.edges 10.0 = Ok ps /\
    dom ps = list_to_set parameter_names /\
    (forall k v, ps !! k = Some v -> 0 <= v <= 1).
Proof.
  destruct (aggregation_returns taxicab MoreTestData.stations
              {[ "source" := "DEL"; "target" := "GZB" ]}
              [ {[ "source" := "GZB"; "target" := "AGC" ]} ] 10.0
              test_stations_have_ids) as [ps E].
  exists ps. split; [exact E |].
  destruct (track_parameters_ranges taxicab MoreTestData.stations _ _ 10.0 ps E)
    as (Hdom & Hrange & _).
  split; [exact Hdom | exact Hrange].
Defined.

Lemma div_range (x n c : Q) : 1 <= n -> 0 <= x <= c * n -> 0 <= x / n <= c.
Proof.
  intros Hn [Hlo Hhi]. split.
  - apply Qle_shift_div_l; lra.
  - apply Qle_shift_div_r; lra.
Qed.

Lemma complement_average (s t n : Q) : 1 <= n -> t == n - s -> t / n == 1 - s / n.
Proof. intros Hn ->. field. lra. Qed.

(** X10. In a returning aggregation over at least one edge the outputs
    are tied together: lateral clearance p39 is the complement of the
    curve severity p22, p38 is the complement of the ballast condition
    p29, and the composite risk p40 is the weighted sum 0.20 p21 + 0.15
    p22 + 0.10 p23 + 0.10 p24 + 0.10 p28 + 0.10 p29 + 0.15 p37 of the
    other outputs; the clamp around it never cuts. *)
Theorem track_parameters_relations (hypot : Q -> Q -> Q) (stations : list dict)
    (e : edge) (edges : list edge) (default_segment_km : Q) (ps : gmap string Q) :
  compute_track_parameters hypot stations (e :: edges) default_segment_km = Ok ps ->
  exists v21 v22 v23 v24 v28 v29 v37 v38 v39 v40,
    ps !! "p21" = Some v21 /\ ps !! "p22" = Some v22 /\ ps !! "p23" = Some v23 /\
    ps !! "p24" = Some v24 /\ ps !! "p28" = Some v28 /\ ps !! "p29" = Some v29 /\
    ps !! "p37" = Some v37 /\ ps !! "p38" = Some v38 /\ ps !! "p39" = Some v39 /\
    ps !! "p40" = Some v40 /\
    v39 == 1 - v22 /\
    v38 == 1 - v29 /\
    v40 == 0.20 * v21 + 0.15 * v22 + 0.10 * v23 + 0.10 * v24 + 0.10 * v28
           + 0.10 * v29 + 0.15 * v37.
Proof.
  intros H. open_aggregation H.
  destruct Hinv as (Hc & Hl & Hb & Hu & _).
  eexists _, _, _, _, _, _, _, _, _, _. repeat (split; [reflexivity |]).
  cbn [snd].
  assert (Hcurve : _clamp01 (sum_curve a / n) == sum_curve a / n)
    by (apply clamp01_id, div_range; [exact Hn | lra]).
  assert (Hballast : _clamp01 (sum_ballast a / n) == sum_ballast a / n)
    by (apply clamp01_id, div_range; [exact Hn | lra]).
  assert (Hlat : sum_lateral_clearance a / n == 1 - sum_curve a / n)
    by (apply complement_average; assumption).
  assert (Huni : sum_ballast_uniform a / n == 1 - sum_ballast a / n)
    by (apply complement_average; assumption).
  pose proof (div_range (sum_curve a) n 1 Hn ltac:(lra)) as Hcr.
  pose proof (div_range (sum_ballast a) n 1 Hn ltac:(lra)) as Hbr.
  assert (Hlateral : _clamp01 (sum_lateral_clearance a / n) == 1 - sum_curve a / n)
    by (rewrite clamp01_id; [exact Hlat | rewrite Hlat; lra]).
  assert (Huniform : _clamp01 (sum_ballast_uniform a / n) == 1 - sum_ballast a / n)
    by (rewrite clamp01_id; [exact Huni | rewrite Huni; lra]).
  split; [rewrite Hlateral, Hcurve; reflexivity |].
  split.
  - pose proof (clamp01_bounds (sum_ballast a / n)).
    rewrite clamp01_id; lra.
  - match goal with |- _clamp01 ?S == _ => rewrite (clamp01_id S) end.
    all: set (x := sum_curve a / n) in *; set (y := sum_ballast a / n) in *;
      set (u := _clamp01 (sum_ballast_uniform a / n)) in *;
      set (c22 := _clamp01 x) in *; set (c29 := _clamp01 y) in *;
      clearbody x y u c22 c29;
      repeat match goal with
      | |- context [_clamp01 ?v] =>
          let c := fresh "c" in
          pose proof (clamp01_bounds v); set (c := _clamp01 v) in *; clearbody c
      end;
      lra.
Qed.

Lemma track_parameters_relations_witness :
  exists (ps : gmap string Q) (v22 v39 : Q),
    compute_track_parameters taxicab MoreTestData.stations MoreTestData.edges 10.0 = Ok ps /\
    ps !! "p22" = Some v22 /\ ps !! "p39" = Some v39 /\ v39 == 1 - v22.
Proof.
  destruct (aggregation_returns taxicab MoreTestData.stations
              {[ "source" := "DEL"; "target" := "GZB" ]}
              [ {[ "source" := "GZB"; "target" := "AGC" ]} ] 10.0
              test_stations_have_ids) as [ps E].
  destruct (track_parameters_relations taxicab MoreTestData.stations _ _ 10.0 ps E)
    as (v21 & v22 & v23 & v24 & v28 & v29 & v37 & v38 & v39 & v40 &
        _ & H22 & _ & _ & _ & _ & _ & _ & H39 & _ & Hrel & _).
  exists ps, v22, v39. repeat split; assumption.
Defined.

End AggregatorMore.

(** ** Train kinematics: further properties *)

Module KinematicsMore.
Import PyQ PyQFacts Kinematics KinematicsProps Results MoreTestData.
Local Open Scope Q_scope.

Lemma bounded_indicators_witness :
  exists f : frame,
    train_frame TestData.train_neg = Ok f /\
    -1 <= p2 (indicators f) <= 1 /\ 0 <= p4 (indicators f) <= 1.
Proof.
  destruct (train_frame_returns TestData.train_neg) as [f E]; [vm_compute; reflexivity |].
  exists f. split; [exact E |].
  pose proof (bounded_indicators TestData.train_neg f E) as H. cbv zeta in H.
  destruct H as (H2 & _ & H4 & _). split; [exact H2 | exact H4].
Defined.

(** X12. For a train that moves forward (speed and priority not
    negative), whose clock does not run backwards and whose speed changed
    by at most 200 km/h since the previous snapshot, the seven indicators
    that have no lower clamp or no cap stay in [0, 1] as well. *)
Theorem forward_motion_in_range (t : dict) (f : frame) (speed priority prev : Q) :
  train_frame t = Ok f ->
  get_num t "speed" 0 = Ok speed ->
  get_num t "priority" 1 = Ok priority ->
  get_num t "prev_speed" speed = Ok prev ->
  0 <= speed -> 0 <= priority ->
  let p := indicators f in
  (0 <= p1 p <= 1) /\ (0 <= p8 p <= 1) /\ (0 <= p13 p <= 1) /\
  (0 <= p15 p <= 1) /\ (0 <= p20 p <= 1) /\
  (-200 <= speed - prev <= 200 -> 0 <= p12 p <= 1) /\
  ((forall start now, get_num t "startTime" 0 = Ok start ->
                      get_num t "now" start = Ok now -> start <= now) ->
   0 <= p9 p <= 1).
Proof.
  intros H Hs Hp Hv Hs0 Hp0. frame_inv H.
  repeat match goal with
  | E1 : ?x = Ok ?a, E2 : ?x = Ok ?b |- _ =>
      assert (a = b) by congruence; subst a; clear E1
  end.
  assert (Hden : 1 <= py_max 1.0 (priority * 100.0)).
  { pose proof (py_max_ge_l 1.0 (priority * 100.0)). lra. }
  assert (H13 : 0 <= speed / py_max 1.0 (priority * 100.0)).
  { apply Qle_shift_div_l; lra. }
  set (q13 := speed / py_max 1.0 (priority * 100.0)) in *. clearbody q13.
  repeat apply conj.
  1-10: split_min_max; norm_inv; lra.
  - intros [Hlo Hhi]. split; split_min_max; norm_inv; lra.
  - intros Hclock.
    match goal with E : (if Qltb 0 ?s then _ else _) = Ok _ |- _ =>
      destruct (Qltb_reflect 0 s) as [Hpos | Hnpos];
      [apply rbind_ok in E as (now & Enow & E) |]; injection E as <-
    end.
    + specialize (Hclock _ _ ltac:(eassumption) Enow).
      split; split_min_max; norm_inv; lra.
    + split; split_min_max; norm_inv; lra.
Qed.

Lemma forward_motion_in_range_witness :
  exists f : frame,
    train_frame TestData.T1 = Ok f /\
    0 <= p1 (indicators f) <= 1 /\ 0 <= p12 (indicators f) <= 1.
Proof.
  destruct (train_frame_returns TestData.T1) as [f E]; [vm_compute; reflexivity |].
  exists f. split; [exact E |].
  pose proof (forward_motion_in_range TestData.T1 f 100 1 100 E eq_refl eq_refl eq_refl) as H.
  cbv zeta in H.
  destruct H as (H1 & _ & _ & _ & _ & H12 & _); try (vm_compute; discriminate).
  split; [exact H1 |]. apply H12. vm_compute. split; discriminate.
Defined.

(** *** A second pass over unchanged snapshots *)






(** *** Exceptions *)

Lemma train_loop_app (pre post : list loc) :
  forall results (h : heap),
    train_loop (pre ++ post) results h =
    match train_loop pre results h with
    | (Ok results', h') => train_loop post results' h'
    | (Raise e, h') => (Raise e, h')
    end.
Proof.
  induction pre as [| l pre IH]; intros results h; cbn [app train_loop]; [reflexivity |].
  destruct (train_frame (h l)) as [f | e]; [apply IH | reflexivity].
Qed.

Lemma train_frame_missing_id (t : dict) : t !! "id" = None -> train_frame t = Raise KeyError.
Proof. intros H. unfold train_frame, item. by rewrite H. Qed.

(** X14. A snapshot without an ["id"] makes the call raise [KeyError],
    whatever comes after it; the snapshots before it have already been
    processed and keep their new carried state (there is no rollback),
    while the offending snapshot and those after it are left as they
    were unless they also occur earlier in the list. *)
Theorem missing_id_aborts_without_rollback (pre post : list loc) (l : loc) (h h1 : heap)
    (res : list (value Q * parameters)) :
  compute_train_parameters pre h = (Ok res, h1) ->
  h l !! "id" = None ->
  compute_train_parameters (pre ++ l :: post) h = (Raise KeyError, h1) /\
  (forall l', l' ∈ pre -> is_Some (h1 l' !! "prev_speed") /\ is_Some (h1 l' !! "prev_accel")) /\
  (forall l', l' ∉ pre -> h1 l' = h l').
Proof.
  unfold compute_train_parameters. intros Hpre Hid.
  pose proof (train_loop_frame _ _ _ _ _ Hpre) as [Hkeys Hout].
  split; [| split].
  - rewrite train_loop_app, Hpre. cbn [train_loop].
    rewrite train_frame_missing_id; [reflexivity |].
    by rewrite Hkeys.
  - intros l' Hl'.
    destruct (train_loop_carried _ _ _ _ _ l' Hpre Hl') as (s & p & _ & _ & Hs & Ha).
    rewrite Hs, Ha. split; eauto.
  - exact Hout.
Qed.

Lemma missing_id_aborts_without_rollback_witness :
  exists h1 : heap,
    compute_train_parameters [0%nat; 1%nat] store_without_id = (Raise KeyError, h1) /\
    is_Some (h1 0%nat !! "prev_speed") /\
    h1 1%nat = store_without_id 1%nat.
Proof.
  destruct (train_loop_returns [0%nat] [] store_without_id) as (res & h1 & E).
  { intros l Hl. apply list_elem_of_singleton in Hl as ->. vm_compute. reflexivity. }
  destruct (missing_id_aborts_without_rollback [0%nat] [] 1%nat store_without_id h1 res
              E eq_refl) as (Hraise & Hcarried & Hleft).
  exists h1. split; [exact Hraise |]. split.
  - apply Hcarried. left.
  - apply Hleft. intros Hin. apply list_elem_of_singleton in Hin. discriminate.
Defined.

(** *** The result dict *)

Lemma value_eqb_refl (a : value Q) : value_eqb a a = true.
Proof.
  destruct a as [x | s |]; cbn [value_eqb]; [| apply String.eqb_refl | reflexivity].
  apply Qeq_bool_iff. reflexivity.
Qed.

Lemma value_eqb_sym (a b : value Q) : value_eqb a b = value_eqb b a.
Proof.
  destruct a as [x | s |], b as [y | t |]; cbn [value_eqb]; try reflexivity.
  - destruct (Qeq_bool x y) eqn:E1, (Qeq_bool y x) eqn:E2; try reflexivity.
    + apply Qeq_bool_iff in E1. symmetry in E1. apply Qeq_bool_iff in E1. congruence.
    + apply Qeq_bool_iff in E2. symmetry in E2. apply Qeq_bool_iff in E2. congruence.
  - apply String.eqb_sym.
Qed.

Lemma value_eqb_trans (a b c : value Q) :
  value_eqb a b = true -> value_eqb b c = true -> value_eqb a c = true.
Proof.
  destruct a as [x | s |], b as [y | t |], c as [z | u |]; cbn [value_eqb];
    try discriminate; try reflexivity.
  - rewrite !Qeq_bool_iff. intros -> ->. reflexivity.
  - rewrite !String.eqb_eq. congruence.
Qed.

Lemma dict_get_set_same (r : list (value Q * parameters)) (k : value Q) (v : parameters) :
  dict_get (dict_set r k v) k = Some v.
Proof.
  induction r as [| [k' v'] r IH]; cbn [dict_set dict_get].
  - by rewrite value_eqb_refl.
  - destruct (value_eqb k' k) eqn:E; cbn [dict_get]; rewrite E; [reflexivity | exact IH].
Qed.

Lemma dict_get_set_other (r : list (value Q * parameters)) (k j : value Q) (v : parameters) :
  value_eqb k j = false -> dict_get (dict_set r k v) j = dict_get r j.
Proof.
  intros Hkj. induction r as [| [k' v'] r IH]; cbn [dict_set dict_get].
  - by rewrite Hkj.
  - destruct (value_eqb k' k) eqn:E; cbn [dict_get].
    + destruct (value_eqb k' j) eqn:Ej; [| reflexivity].
      rewrite value_eqb_sym in E.
      by rewrite (value_eqb_trans _ _ _ E Ej) in Hkj.
    + destruct (value_eqb k' j); [reflexivity | exact IH].
Qed.

Lemma length_dict_set (r : list (value Q * parameters)) (k : value Q) (v : parameters) :
  (length (dict_set r k v) <= S (length r))%nat /\
  (dict_get r k = None -> length (dict_set r k v) = S (length r)).
Proof.
  induction r as [| [k' v'] r [IH1 IH2]]; cbn [dict_set dict_get length].
  - split; [lia | reflexivity].
  - destruct (value_eqb k' k); cbn [length]; split; try lia; try discriminate.
    intros H. by rewrite IH2.
Qed.

Lemma train_frame_tid (t : dict) (f : frame) : train_frame t = Ok f -> t !! "id" = Some (tid f).
Proof.
  intros H. frame_inv H.
  repeat match goal with E : item t _ = Ok _ |- _ => unfold item in E end.
  destruct (t !! "id"); congruence.
Qed.

Lemma saved_id (h : heap) (l0 l : loc) (f : frame) :
  <[l0 := save_frame (h l0) f]> h l !! "id" = h l !! "id".
Proof.
  destruct (decide (l0 = l)) as [-> | Hne].
  - rewrite fn_lookup_insert. by apply save_frame_other.
  - by rewrite fn_lookup_insert_ne.
Qed.

(** Keys are never removed, every listed train gets an entry, and the
    dict grows by at most one entry per train. *)
Lemma train_loop_keys (trains : list loc) :
  forall results (h h' : heap) res,
    train_loop trains results h = (Ok res, h') ->
    (length res <= length results + length trains)%nat /\
    (forall k, is_Some (dict_get results k) -> is_Some (dict_get res k)) /\
    (forall l, l ∈ trains ->
       exists i, h l !! "id" = Some i /\ is_Some (dict_get res i)).
Proof.
  induction trains as [| l0 rest IH]; intros results h h' res H; cbn [train_loop] in H.
  - injection H as <- <-. split; [cbn; lia |]. split; [auto |].
    intros l Hl. by apply elem_of_nil in Hl.
  - destruct (train_frame (h l0)) as [f | e] eqn:E; [| discriminate].
    apply IH in H as (Hlen & Hkeep & Hin).
    pose proof (length_dict_set results (tid f) (indicators f)) as [Hle _].
    split; [cbn [length]; lia |]. split.
    + intros k Hk. apply Hkeep.
      destruct (value_eqb (tid f) k) eqn:Ek.
      * assert (Hs : is_Some (dict_get (dict_set results (tid f) (indicators f)) (tid f)))
          by (rewrite dict_get_set_same; eauto).
        destruct Hs as [v Hv]. clear Hkeep Hin Hlen.
        revert Hv. generalize (dict_set results (tid f) (indicators f)).
        intros r. induction r as [| [k' v'] r IHr]; cbn [dict_get]; [discriminate |].
        destruct (value_eqb k' (tid f)) eqn:E1.
        -- rewrite (value_eqb_trans _ _ _ E1 Ek). eauto.
        -- destruct (value_eqb k' k); eauto.
      * by rewrite dict_get_set_other.
    + intros l Hl. apply elem_of_cons in Hl as [-> | Hl].
      * exists (tid f). split; [by apply train_frame_tid |].
        apply Hkeep. rewrite dict_get_set_same. eauto.
      * destruct (Hin l Hl) as (i & Hi & Hs). exists i. split; [| exact Hs].
        by rewrite saved_id in Hi.
Qed.

(** A key that no listed train carries keeps its entry. *)
Lemma train_loop_other_keys (trains : list loc) :
  forall results (h h' : heap) res k,
    train_loop trains results h = (Ok res, h') ->
    (forall l i, l ∈ trains -> h l !! "id" = Some i -> value_eqb i k = false) ->
    dict_get res k = dict_get results k.
Proof.
  induction trains as [| l0 rest IH]; intros results h h' res k H Hk; cbn [train_loop] in H.
  - by injection H as <- <-.
  - destruct (train_frame (h l0)) as [f | e] eqn:E; [| discriminate].
    rewrite (IH _ _ _ _ k H).
    + apply dict_get_set_other. apply (Hk l0); [left | by apply train_frame_tid].
    + intros l i Hl Hi. rewrite saved_id in Hi. apply (Hk l); [by right | exact Hi].
Qed.

(** X15. The result dict has an entry for the id of every train of the
    list and at most one entry per train. When the snapshots are distinct
    objects with pairwise different ids, it has exactly one entry per
    train, holding the indicators computed from that train's snapshot. *)
Theorem results_keyed_by_id (trains : list loc) (h h' : heap)
    (res : list (value Q * parameters)) :
  compute_train_parameters trains h = (Ok res, h') ->
  (length res <= length trains)%nat /\
  (forall l, l ∈ trains -> exists i, h l !! "id" = Some i /\ is_Some (dict_get res i)) /\
  (NoDup trains ->
   (forall l1 l2 i1 i2, l1 ∈ trains -> l2 ∈ trains -> l1 <> l2 ->
      h l1 !! "id" = Some i1 -> h l2 !! "id" = Some i2 -> value_eqb i1 i2 = false) ->
   length res = length trains /\
   forall l, l ∈ trains ->
     exists f, train_frame (h l) = Ok f /\ dict_get res (tid f) = Some (indicators f)).
Proof.
  unfold compute_train_parameters. intros H.
  pose proof (train_loop_keys _ _ _ _ _ H) as (Hlen & _ & Hin).
  split; [cbn in Hlen; lia |]. split; [exact Hin |].
  clear Hlen Hin. intros Hnd Hids.
  assert (Hfresh : forall l i, l ∈ trains -> h l !! "id" = Some i ->
                               dict_get (@nil (value Q * parameters)) i = None)
    by (intros; reflexivity).
  assert (Hgoal :
    length res = (length (@nil (value Q * parameters)) + length trains)%nat /\
    forall l, l ∈ trains ->
      exists f, train_frame (h l) = Ok f /\ dict_get res (tid f) = Some (indicators f)).
  2: { destruct Hgoal as [Hl Hv]. split; [exact Hl | exact Hv]. }
  revert H Hfresh. generalize (@nil (value Q * parameters)). revert h Hids.
  induction Hnd as [| l0 rest Hnotin Hnd IH]; intros h Hids results H Hfresh;
    cbn [train_loop] in H.
  - injection H as <- <-. split; [cbn; lia |].
    intros l Hl. by apply elem_of_nil in Hl.
  - destruct (train_frame (h l0)) as [f | e] eqn:E; [| discriminate].
    pose proof (train_frame_tid _ _ E) as Hid0.
    assert (Hunvisited : forall l, l ∈ rest ->
              <[l0 := save_frame (h l0) f]> h l = h l).
    { intros l Hl. apply fn_lookup_insert_ne. intros ->. contradiction. }
    destruct (IH (<[l0 := save_frame (h l0) f]> h)) with
      (l := dict_set results (tid f) (indicators f)) as [Hlen Hval].
    + intros l1 l2 i1 i2 H1 H2 Hne Hi1 Hi2. rewrite saved_id in Hi1, Hi2.
      apply (Hids l1 l2); try assumption; by right.
    + exact H.
    + intros l i Hl Hi. rewrite saved_id in Hi.
      rewrite dict_get_set_other.
      * apply (Hfresh l); [by right | exact Hi].
      * apply (Hids l0 l); [left | by right | by intros -> | exact Hid0 | exact Hi].
    + pose proof (length_dict_set results (tid f) (indicators f)) as [_ Heq].
      rewrite Heq in Hlen by (apply (Hfresh l0); [left | exact Hid0]).
      split; [cbn [length]; lia |].
      intros l Hl. apply elem_of_cons in Hl as [-> | Hl].
      * exists f. split; [exact E |].
        rewrite (train_loop_other_keys _ _ _ _ _ (tid f) H).
        -- apply dict_get_set_same.
        -- intros l i Hl Hi. rewrite saved_id in Hi.
           apply (Hids l l0); [by right | left | by intros -> | exact Hi | exact Hid0].
      * destruct (Hval l Hl) as (f' & Hf' & Hget). exists f'. split; [| exact Hget].
        by rewrite Hunvisited in Hf'.
Qed.

Lemma results_keyed_by_id_witness :
  exists res h',
    compute_train_parameters [0%nat; 1%nat] TestData.store = (Ok res, h') /\
    length res = 2%nat /\
    is_Some (dict_get res (VStr "T1")) /\ is_Some (dict_get res (VStr "T2")).
Proof.
  destruct (train_loop_returns [0%nat; 1%nat] [] TestData.store) as (res & h' & E).
  { intros l _. destruct l; vm_compute; reflexivity. }
  destruct (results_keyed_by_id [0%nat; 1%nat] TestData.store h' res E)
    as (_ & Hin & Hone).
  exists res, h'. split; [exact E |].
  destruct Hone as [Hlen Hval].
  { apply (bool_decide_unpack _). vm_compute. exact I. }
  { intros l1 l2 i1 i2 H1 H2 Hne Hi1 Hi2.
    rewrite !elem_of_cons, elem_of_nil in H1, H2.
    destruct H1 as [-> | [-> | []]], H2 as [-> | [-> | []]]; try congruence;
      injection Hi1 as <-; injection Hi2 as <-; reflexivity. }
  split; [exact Hlen |]. split.
  - destruct (Hin 0%nat) as (i & Hi & Hsome); [left |].
    injection Hi as <-. exact Hsome.
  - destruct (Hin 1%nat) as (i & Hi & Hsome); [right; left |].
    injection Hi as <-. exact Hsome.
Defined.

End KinematicsMore.

(** ** Great-circle distance: further properties *)

Module GeodesyMore.
Import Geodesy.
Local Open Scope R_scope.

(** The quantity under the square root, as the source computes it. *)
Lemma haversine_unfold (lat1 lon1 lat2 lon2 : R) :
  haversine lat1 lon1 lat2 lon2 =
  2 * 6371000 *
  asin (sqrt (sin (radians (lat2 - lat1) / 2) ^ 2 +
              cos (radians lat1) * cos (radians lat2) *
              sin (radians (lon2 - lon1) / 2) ^ 2)).
Proof. reflexivity. Qed.

Lemma sin_half_sq (x : R) : sin (x / 2) ^ 2 = (1 - cos x) / 2.
Proof.
  replace x with (2 * (x / 2)) at 2 by field.
  rewrite cos_2a_sin. field.
Qed.

Lemma radians_minus (a b : R) : radians (a - b) = radians a - radians b.
Proof. unfold radians. ring. Qed.

(** The haversine of the central angle lies in [0, 1]. *)
Lemma hav_range (lat1 lon1 lat2 lon2 : R) :
  0 <= sin (radians (lat2 - lat1) / 2) ^ 2 +
       cos (radians lat1) * cos (radians lat2) *
       sin (radians (lon2 - lon1) / 2) ^ 2 <= 1.
Proof.
  rewrite !sin_half_sq, radians_minus, cos_minus.
  pose proof (sin2_cos2 (radians lat1)) as H1.
  pose proof (sin2_cos2 (radians lat2)) as H2.
  pose proof (COS_bound (radians (lon2 - lon1))) as [Hlo Hhi].
  unfold Rsqr in H1, H2.
  set (s1 := sin (radians lat1)) in *. set (c1 := cos (radians lat1)) in *.
  set (s2 := sin (radians lat2)) in *. set (c2 := cos (radians lat2)) in *.
  set (t := cos (radians (lon2 - lon1))) in *. clearbody s1 c1 s2 c2 t.
  assert (Ht : 0 <= c2 * c2 * (1 - t * t)) by (apply Rmult_le_pos; nra).
  pose proof (Rle_0_sqr (s1 - s2)) as Ha. pose proof (Rle_0_sqr (c1 - c2 * t)) as Hb.
  pose proof (Rle_0_sqr (s1 + s2)) as Hc. pose proof (Rle_0_sqr (c1 + c2 * t)) as Hd.
  unfold Rsqr in Ha, Hb, Hc, Hd.
  split; lra.
Qed.

Lemma asin_nonneg (x : R) : 0 <= x <= 1 -> 0 <= asin x <= PI / 2.
Proof.
  intros [Hlo Hhi]. split; [| apply asin_bound].
  rewrite <- asin_0.
  destruct (Req_dec x 0) as [-> | Hne]; [lra |].
  destruct (Req_dec x 1) as [-> | Hne1].
  - rewrite asin_0, asin_1. pose proof PI2_RGT_0. lra.
  - rewrite asin_0, asin_atan by lra. rewrite <- atan_0.
    apply Rlt_le, atan_increasing.
    apply Rdiv_lt_0_compat; [lra |].
    apply sqrt_lt_R0. unfold Rsqr. nra.
Qed.

(** X16. The haversine distance is symmetric, is 0 from a point to
    itself, and always lies between 0 and half the circumference of the
    sphere; the value under [sqrt] and [asin] is always in [0, 1], so that
    squaring the sine of half the central angle gives it back. *)
Theorem haversine_is_a_distance (lat1 lon1 lat2 lon2 : R) :
  haversine lat1 lon1 lat2 lon2 = haversine lat2 lon2 lat1 lon1 /\
  haversine lat1 lon1 lat1 lon1 = 0 /\
  0 <= haversine lat1 lon1 lat2 lon2 <= PI * 6371000 /\
  sin (haversine lat1 lon1 lat2 lon2 / (2 * 6371000)) ^ 2 =
    sin (radians (lat2 - lat1) / 2) ^ 2 +
    cos (radians lat1) * cos (radians lat2) * sin (radians (lon2 - lon1) / 2) ^ 2.
Proof.
  split; [| split; [| split]].
  - rewrite !haversine_unfold. do 3 f_equal.
    replace (radians (lat1 - lat2) / 2) with (- (radians (lat2 - lat1) / 2))
      by (unfold radians; field).
    replace (radians (lon1 - lon2) / 2) with (- (radians (lon2 - lon1) / 2))
      by (unfold radians; field).
    rewrite !sin_neg. ring.
  - rewrite haversine_unfold.
    replace (radians (lat1 - lat1) / 2) with 0 by (unfold radians; field).
    replace (radians (lon1 - lon1) / 2) with 0 by (unfold radians; field).
    rewrite sin_0.
    replace (0 ^ 2 + cos (radians lat1) * cos (radians lat1) * 0 ^ 2) with 0 by ring.
    rewrite sqrt_0, asin_0. ring.
  - rewrite haversine_unfold.
    pose proof (hav_range lat1 lon1 lat2 lon2) as [Hlo Hhi].
    set (a := sin (radians (lat2 - lat1) / 2) ^ 2 + _) in *. clearbody a.
    assert (Hs : 0 <= sqrt a <= 1).
    { split; [apply sqrt_pos |]. rewrite <- sqrt_1. by apply sqrt_le_1_alt. }
    pose proof (asin_nonneg (sqrt a) Hs). lra.
  - rewrite haversine_unfold.
    pose proof (hav_range lat1 lon1 lat2 lon2) as [Hlo Hhi].
    set (a := sin (radians (lat2 - lat1) / 2) ^ 2 + _) in *. clearbody a.
    replace (2 * 6371000 * asin (sqrt a) / (2 * 6371000)) with (asin (sqrt a)) by field.
    assert (Hs : 0 <= sqrt a <= 1).
    { split; [apply sqrt_pos |]. rewrite <- sqrt_1. by apply sqrt_le_1_alt. }
    rewrite sin_asin by lra.
    rewrite <- Rsqr_pow2. by apply Rsqr_sqrt.
Qed.

End GeodesyMore.

(** ** Collision arbitration: further properties *)

Module ArbitrationMore.
Import PyR Geodesy Arbitration Scenarios.
Local Open Scope R_scope.

Lemma haversine_swap (lat1 lon1 lat2 lon2 : R) :
  haversine lat1 lon1 lat2 lon2 = haversine lat2 lon2 lat1 lon1.
Proof.
  unfold haversine. do 3 f_equal.
  replace (radians (lat1 - lat2) / 2) with (- (radians (lat2 - lat1) / 2))
    by (unfold radians; field).
  replace (radians (lon1 - lon2) / 2) with (- (radians (lon2 - lon1) / 2))
    by (unfold radians; field).
  rewrite !sin_neg. ring.
Qed.

(** X17. For two trains with numeric coordinates, priorities and speeds
    and with ids, the call returns, and who stops and who passes does not
    depend on the order of the two trains in the list: [STOP_BOTH] stays
    [STOP_BOTH] with the same reason, and [STOP_ONE] names the same train
    to stop and the same train to pass. *)
Theorem decision_independent_of_order (A B : dict) (restAB restBA : list dict)
    (latA lonA latB lonB prA prB sA sB : R) (idA idB : value R) :
  A !! "lat" = Some (VNum latA) -> A !! "lon" = Some (VNum lonA) ->
  B !! "lat" = Some (VNum latB) -> B !! "lon" = Some (VNum lonB) ->
  get A "priority" (VNum 1) = VNum prA -> get B "priority" (VNum 1) = VNum prB ->
  get A "speed" (VNum 0) = VNum sA -> get B "speed" (VNum 0) = VNum sB ->
  A !! "id" = Some idA -> B !! "id" = Some idB ->
  (exists reason,
     decide_collision_action (A :: B :: restAB) = Ok (STOP_BOTH reason) /\
     decide_collision_action (B :: A :: restBA) = Ok (STOP_BOTH reason)) \/
  (exists stop pass reason reason',
     decide_collision_action (A :: B :: restAB) = Ok (STOP_ONE stop pass reason) /\
     decide_collision_action (B :: A :: restBA) = Ok (STOP_ONE stop pass reason') /\
     ((stop = idA /\ pass = idB) \/ (stop = idB /\ pass = idA))).
Proof.
  intros HlatA HlonA HlatB HlonB HprA HprB HsA HsB HidA HidB.
  unfold decide_collision_action, item, as_num.
  rewrite HlatA, HlonA, HlatB, HlonB, HprA, HprB, HsA, HsB, HidA, HidB.
  cbn [rbind py_gt]. rewrite (haversine_swap latB lonB latA lonA).
  destruct (Rle_dec (haversine latA lonA latB lonB) 35); [left; eauto |].
  destruct (Rlt_dec prB prA), (Rlt_dec prA prB); try lra; cbn [rbind].
  - right. eexists _, _, _, _. eauto.
  - right. eexists _, _, _, _. eauto.
  - destruct (Rlt_dec sB sA), (Rlt_dec sA sB); try lra; cbn [rbind].
    + right. eexists _, _, _, _. eauto.
    + right. eexists _, _, _, _. eauto.
    + left. eauto.
Qed.

Lemma decision_independent_of_order_witness :
  let A := train_at "T1" 0 0 2 100 in
  let B := train_at "T2" (north_of_origin 1000) 0 1 80 in
  (exists reason,
     decide_collision_action [A; B] = Ok (STOP_BOTH reason) /\
     decide_collision_action [B; A] = Ok (STOP_BOTH reason)) \/
  (exists stop pass reason reason',
     decide_collision_action [A; B] = Ok (STOP_ONE stop pass reason) /\
     decide_collision_action [B; A] = Ok (STOP_ONE stop pass reason') /\
     ((stop = VStr "T1" /\ pass = VStr "T2") \/ (stop = VStr "T2" /\ pass = VStr "T1"))).
Proof.
  intros A B.
  apply (decision_independent_of_order A B [] [] 0 0 (north_of_origin 1000) 0 2 1 100 80
           (VStr "T1") (VStr "T2")); reflexivity.
Defined.

(** X18. A train without a ["lat"] or ["lon"] among the first two makes
    the call raise [KeyError], whatever the other fields; with all four
    coordinates present but one of them not a number it raises
    [TypeError]. *)
Theorem missing_coordinate_raises (A B : dict) (rest : list dict) :
  (A !! "lat" = None \/ A !! "lon" = None \/ B !! "lat" = None \/ B !! "lon" = None ->
   decide_collision_action (A :: B :: rest) = Raise KeyError) /\
  (forall a b c d : value R,
     A !! "lat" = Some a -> A !! "lon" = Some b ->
     B !! "lat" = Some c -> B !! "lon" = Some d ->
     (forall x, a <> VNum x) \/ (forall x, b <> VNum x) \/
     (forall x, c <> VNum x) \/ (forall x, d <> VNum x) ->
     decide_collision_action (A :: B :: rest) = Raise TypeError).
Proof.
  unfold decide_collision_action, item. split.
  - intros H.
    destruct (A !! "lat"); cbn [rbind]; [| reflexivity].
    destruct (A !! "lon"); cbn [rbind]; [| reflexivity].
    destruct (B !! "lat"); cbn [rbind]; [| reflexivity].
    destruct (B !! "lon"); cbn [rbind]; [| reflexivity].
    destruct H as [H | [H | [H | H]]]; discriminate.
  - intros a b c d -> -> -> -> H. cbn [rbind]. unfold as_num.
    destruct a as [x | |]; cbn [rbind]; try reflexivity.
    destruct b as [y | |]; cbn [rbind]; try reflexivity.
    destruct c as [z | |]; cbn [rbind]; try reflexivity.
    destruct d as [w | |]; cbn [rbind]; try reflexivity.
    destruct H as [H | [H | [H | H]]]; exfalso; eapply H; reflexivity.
Qed.

Lemma missing_coordinate_raises_witness :
  decide_collision_action [ {[ "id" := VStr "T1"; "lat" := VNum 0 ]}; train_at "T2" 0 0 1 80 ]
  = Raise KeyError.
Proof.
  apply (missing_coordinate_raises {[ "id" := VStr "T1"; "lat" := VNum 0 ]}
           (train_at "T2" 0 0 1 80) []).
  right. left. reflexivity.
Defined.

End ArbitrationMore.

(** ** Track segmentation: further properties *)

Module SegmenterMore.
Import PyR Segmenter.
Local Open Scope R_scope.

Section Segments.

Context {Env : Type}.
Variable generate_segment_environment : string -> R -> Env.
Variable haversine : R -> R -> R -> R -> R.

Abbreviation run := (segment_track Env generate_segment_environment haversine).

(** A successful run, taken apart. *)
Lemma segment_track_inv (stations : gmap string dict) (u v : string) (L : R)
    (segs : list (segment Env)) :
  run stations u v L = Ok segs ->
  exists (A B : dict) (lat1 lon1 lat2 lon2 : R) (n : Z),
    stations !! u = Some A /\ stations !! v = Some B /\
    A !! "lat" = Some (VNum lat1) /\ A !! "lon" = Some (VNum lon1) /\
    B !! "lat" = Some (VNum lat2) /\ B !! "lon" = Some (VNum lon2) /\
    L <> 0 /\
    n = Z.max 1 (Zfloor (haversine lat1 lon1 lat2 lon2 / L)) /\
    segs = map (make_segment Env generate_segment_environment u v lat1 lon1 lat2 lon2 L n)
               (seq 0 (Z.to_nat n)).
Proof.
  unfold segment_track, station, item, as_num, floordiv. intros H.
  destruct (stations !! u) as [A |] eqn:Hu; [| discriminate].
  destruct (stations !! v) as [B |] eqn:Hv; [| discriminate]. cbn [rbind] in H.
  destruct (A !! "lat") as [a |] eqn:Ha; [| discriminate]. cbn [rbind] in H.
  destruct (A !! "lon") as [b |] eqn:Hb; [| discriminate]. cbn [rbind] in H.
  destruct (B !! "lat") as [c |] eqn:Hc; [| discriminate]. cbn [rbind] in H.
  destruct (B !! "lon") as [d |] eqn:Hd; [| discriminate]. cbn [rbind] in H.
  destruct a as [lat1 | |]; try discriminate. cbn [rbind] in H.
  destruct b as [lon1 | |]; try discriminate. cbn [rbind] in H.
  destruct c as [lat2 | |]; try discriminate. cbn [rbind] in H.
  destruct d as [lon2 | |]; try discriminate. cbn [rbind] in H.
  destruct (Req_dec_T L 0) as [| HL]; [discriminate |]. cbn [rbind] in H.
  injection H as <-.
  exists A, B, lat1, lon1, lat2, lon2, (Z.max 1 (Zfloor (haversine lat1 lon1 lat2 lon2 / L))).
  repeat split; auto.
Qed.

(** With both stations known, numeric coordinates and a segment length
    other than 0, the run returns. *)
Lemma segment_track_returns (stations : gmap string dict) (u v : string) (A B : dict)
    (lat1 lon1 lat2 lon2 L : R) :
  stations !! u = Some A -> stations !! v = Some B ->
  A !! "lat" = Some (VNum lat1) -> A !! "lon" = Some (VNum lon1) ->
  B !! "lat" = Some (VNum lat2) -> B !! "lon" = Some (VNum lon2) ->
  L <> 0 ->
  exists segs, run stations u v L = Ok segs.
Proof.
  intros Hu Hv Ha Hb Hc Hd HL.
  unfold segment_track, station, item, as_num, floordiv.
  rewrite Hu, Hv. cbn [rbind]. rewrite Ha, Hb, Hc, Hd. cbn [rbind].
  destruct (Req_dec_T L 0) as [H0 | _]; [contradiction |]. cbn [rbind]. eauto.
Qed.

Lemma lookup_segment (u v : string) (lat1 lon1 lat2 lon2 L : R) (n : Z) (i : nat) :
  (i < Z.to_nat n)%nat ->
  map (make_segment Env generate_segment_environment u v lat1 lon1 lat2 lon2 L n)
      (seq 0 (Z.to_nat n)) !! i
  = Some (make_segment Env generate_segment_environment u v lat1 lon1 lat2 lon2 L n i).
Proof.
  intros Hi. change (map ?f ?l) with (f <$> l).
  by rewrite list_lookup_fmap, lookup_seq_lt.
Qed.

(** X19. The segments of a successful run tile the edge: the first one
    starts at the first station, each one starts where the one before it
    ends, and the last one ends at the second station. *)
Theorem segments_tile_the_edge (stations : gmap string dict) (u v : string) (L : R)
    (segs : list (segment Env)) :
  run stations u v L = Ok segs ->
  exists (A B : dict) (lat1 lon1 lat2 lon2 : R) (first last : segment Env),
    stations !! u = Some A /\ stations !! v = Some B /\
    A !! "lat" = Some (VNum lat1) /\ A !! "lon" = Some (VNum lon1) /\
    B !! "lat" = Some (VNum lat2) /\ B !! "lon" = Some (VNum lon2) /\
    segs !! 0%nat = Some first /\ start _ first = {| lat := lat1; lon := lon1 |} /\
    segs !! (length segs - 1)%nat = Some last /\
    end_ _ last = {| lat := lat2; lon := lon2 |} /\
    forall (i : nat) (s s' : segment Env),
      segs !! i = Some s -> segs !! S i = Some s' -> start _ s' = end_ _ s.
Proof.
  intros H.
  destruct (segment_track_inv _ _ _ _ _ H)
    as (A & B & lat1 & lon1 & lat2 & lon2 & n & Hu & Hv & H1 & H2 & H3 & H4 & HL & Hn & ->).
  assert (Hpos : (1 <= n)%Z) by lia.
  assert (Hlen : length (map (make_segment Env generate_segment_environment u v
                                lat1 lon1 lat2 lon2 L n) (seq 0 (Z.to_nat n)))
                 = Z.to_nat n) by (by rewrite length_map, length_seq).
  assert (HnR : IZR n <> 0) by (apply not_0_IZR; lia).
  exists A, B, lat1, lon1, lat2, lon2. eexists _, _.
  repeat (split; [assumption |]).
  split; [apply lookup_segment; lia |].
  split.
  { unfold make_segment. cbn [start]. f_equal; simpl INR; field; exact HnR. }
  split; [rewrite Hlen; apply lookup_segment; lia |].
  split.
  { unfold make_segment. cbn [end_].
    assert (E : INR (Z.to_nat n - 1) + 1 = IZR n).
    { rewrite <- S_INR. replace (S (Z.to_nat n - 1)) with (Z.to_nat n) by lia.
      rewrite INR_IZR_INZ, Z2Nat.id by lia. reflexivity. }
    rewrite E. f_equal; field; exact HnR. }
  intros i s s' Hs Hs'.
  assert (Hi : (S i < Z.to_nat n)%nat).
  { apply lookup_lt_Some in Hs'. by rewrite Hlen in Hs'. }
  rewrite lookup_segment in Hs, Hs' by lia.
  injection Hs as <-. injection Hs' as <-.
  unfold make_segment. cbn [start end_]. rewrite S_INR. reflexivity.
Qed.

(** X20. An unknown station name raises [KeyError] and a segment length
    of 0 raises [ZeroDivisionError]; when the segment length is longer
    than the edge, or negative, a single segment spans the whole edge. *)
Theorem segment_track_edge_cases (stations : gmap string dict) (u v : string)
    (A B : dict) (lat1 lon1 lat2 lon2 L : R) :
  (stations !! u = None \/ stations !! v = None ->
   run stations u v L = Raise KeyError) /\
  (stations !! u = Some A -> stations !! v = Some B ->
   A !! "lat" = Some (VNum lat1) -> A !! "lon" = Some (VNum lon1) ->
   B !! "lat" = Some (VNum lat2) -> B !! "lon" = Some (VNum lon2) ->
   (L = 0 -> run stations u v L = Raise ZeroDivisionError) /\
   (L <> 0 -> haversine lat1 lon1 lat2 lon2 / L < 2 ->
    run stations u v L =
    Ok [ {| id := (u +:+ "-" +:+ v +:+ "-0")%string;
            start := {| lat := lat1; lon := lon1 |};
            end_ := {| lat := lat2; lon := lon2 |};
            env := generate_segment_environment (u +:+ "-" +:+ v +:+ "-0")%string L |} ])).
Proof.
  unfold segment_track, station. split.
  - intros [H | H].
    + by rewrite H.
    + rewrite H. by destruct (stations !! u).
  - intros -> -> HlatA HlonA HlatB HlonB. cbn [rbind]. unfold item, as_num, floordiv.
    rewrite HlatA, HlonA, HlatB, HlonB. cbn [rbind]. split.
    + intros ->. by destruct (Req_dec_T 0 0).
    + intros HL Hlt. destruct (Req_dec_T L 0); [contradiction |]. cbn [rbind].
      assert (Hn : Z.max 1 (Zfloor (haversine lat1 lon1 lat2 lon2 / L)) = 1%Z).
      { pose proof (Zfloor_bound (haversine lat1 lon1 lat2 lon2 / L)) as [Hlo _].
        assert (IZR (Zfloor (haversine lat1 lon1 lat2 lon2 / L)) < 2) by lra.
        apply lt_IZR in H. lia. }
      rewrite Hn. change (Z.to_nat 1) with 1%nat. cbn [seq map]. unfold make_segment.
      replace (INR 0 / IZR 1) with 0 by (simpl; field).
      replace ((INR 0 + 1) / IZR 1) with 1 by (simpl; field).
      replace (lat1 + (lat2 - lat1) * 0) with lat1 by ring.
      replace (lon1 + (lon2 - lon1) * 0) with lon1 by ring.
      replace (lat1 + (lat2 - lat1) * 1) with lat2 by ring.
      replace (lon1 + (lon2 - lon1) * 1) with lon2 by ring.
      reflexivity.
Qed.

End Segments.

Lemma segments_tile_the_edge_witness :
  exists (segs : list (segment unit)) (first : segment unit),
    segment_track unit (fun _ _ => tt) Geodesy.haversine
                  Scenarios.two_stations "DEL" "NDLS" 100 = Ok segs /\
    segs !! 0%nat = Some first.
Proof.
  destruct (segment_track_returns (fun _ _ => tt) Geodesy.haversine
              Scenarios.two_stations "DEL" "NDLS"
              (Scenarios.station_at 0 0)
              (Scenarios.station_at (Scenarios.north_of_origin 250) 0)
              0 0 (Scenarios.north_of_origin 250) 0 100
              eq_refl eq_refl eq_refl eq_refl eq_refl eq_refl)
    as [segs E]; [lra |].
  destruct (segments_tile_the_edge (fun _ _ => tt) Geodesy.haversine
              Scenarios.two_stations "DEL" "NDLS" 100 segs E)
    as (A & B & lat1 & lon1 & lat2 & lon2 & first & last &
        _ & _ & _ & _ & _ & _ & Hfirst & _).
  exists segs, first. split; [exact E | exact Hfirst].
Defined.

Lemma segment_track_edge_cases_witness :
  segment_track unit (fun _ _ => tt) Geodesy.haversine
                Scenarios.two_stations "DEL" "AGC" 100 = Raise KeyError /\
  segment_track unit (fun _ _ => tt) Geodesy.haversine
                Scenarios.two_stations "DEL" "NDLS" 0 = Raise ZeroDivisionError.
Proof.
  destruct (segment_track_edge_cases (fun _ _ => tt) Geodesy.haversine
              Scenarios.two_stations "DEL" "AGC" ∅ ∅ 0 0 0 0 100) as [Hkey _].
  destruct (segment_track_edge_cases (fun _ _ => tt) Geodesy.haversine
              Scenarios.two_stations "DEL" "NDLS"
              (Scenarios.station_at 0 0)
              (Scenarios.station_at (Scenarios.north_of_origin 250) 0)
              0 0 (Scenarios.north_of_origin 250) 0 0) as [_ Hzero].
  split.
  - apply Hkey. right. reflexivity.
  - apply Hzero; reflexivity.
Defined.

End SegmenterMore.

(** ** The pairwise scan of smart_ai_server.py *)

Module SmartServerProps.
Import SmartServer.
Local Open Scope R_scope.










End SmartServerProps.

(** ** The /decide endpoint of extreme_ai_server.py *)

Module EndpointProps.
Import PyR Arbitration Segmenter Endpoint.
Local Open Scope R_scope.

Section Endpoint.

Context {SEnv Env : Type}.
Variable generate_station_environment : string -> SEnv.
Variable generate_segment_environment : string -> R -> Env.
Variable segment_haversine : R -> R -> R -> R -> R.

Abbreviation endpoint :=
  (decide_endpoint SEnv Env generate_station_environment
                   generate_segment_environment segment_haversine).
Abbreviation segments_of :=
  (segment_track Env generate_segment_environment segment_haversine).

Lemma cache_station_fold (names : list string) (n : string) :
  forall env : gmap string SEnv,
  fold_left (cache_station SEnv generate_station_environment) names env !! n
  = match env !! n with
    | Some e => Some e
    | None => if decide (n ∈ names) then Some (generate_station_environment n) else None
    end.
Proof.
  induction names as [| a names IH]; intros env; cbn [fold_left].
  - destruct (env !! n); [reflexivity |]. by rewrite decide_False by inversion 1.
  - rewrite IH. unfold cache_station. destruct (env !! a) eqn:Ea.
    + destruct (env !! n) eqn:En; [reflexivity |].
      assert (n <> a) by congruence.
      destruct (decide (n ∈ names)).
      * by rewrite decide_True by by right.
      * by rewrite decide_False by (intros [? | ?]%elem_of_cons; done).
    + destruct (decide (n = a)) as [-> | Hne].
      * rewrite lookup_insert_eq, Ea. by rewrite decide_True by left.
      * rewrite lookup_insert_ne by done. destruct (env !! n); [reflexivity |].
        destruct (decide (n ∈ names)).
        -- by rewrite decide_True by by right.
        -- by rewrite decide_False by (intros [? | ?]%elem_of_cons; done).
Qed.

Lemma station_env_after (trains : list dict) (stations : gmap string dict)
    (edges : list (string * string)) (c : caches SEnv Env) :
  station_env _ _ (endpoint trains stations edges c).2
  = fold_left (cache_station SEnv generate_station_environment)
              (map fst (map_to_list stations)) (station_env _ _ c).
Proof.
  unfold decide_endpoint. by destruct (build_segments _ _ _ _ _ _) as [[] ?].
Qed.

Lemma elem_of_keys (stations : gmap string dict) (n : string) :
  n ∈ map fst (map_to_list stations) <-> is_Some (stations !! n).
Proof.
  change (map fst ?l) with (fst <$> l). rewrite list_elem_of_fmap. split.
  - intros ([k s] & -> & H%elem_of_map_to_list). eauto.
  - intros [s H]. exists (n, s). split; [reflexivity |]. by apply elem_of_map_to_list.
Qed.

(** X22. Whatever the request does afterwards (answer or exception), the
    station cache only grows: an entry cached before the request is kept
    as it is, every station named in the request that had no entry gets
    the generated one, and no other name is added. *)
Theorem station_cache_only_grows (trains : list dict) (stations : gmap string dict)
    (edges : list (string * string)) (c : caches SEnv Env) (n : string) :
  let after := station_env _ _ (endpoint trains stations edges c).2 in
  (forall e, station_env _ _ c !! n = Some e -> after !! n = Some e) /\
  (station_env _ _ c !! n = None -> is_Some (stations !! n) ->
   after !! n = Some (generate_station_environment n)) /\
  (station_env _ _ c !! n = None -> stations !! n = None -> after !! n = None).
Proof.
  intros after. subst after. rewrite station_env_after, cache_station_fold.
  split; [| split].
  - by intros e ->.
  - intros -> H. by rewrite decide_True by by apply elem_of_keys.
  - intros -> H. rewrite decide_False; [done |].
    intros [? ?]%elem_of_keys. congruence.
Qed.

(** *** The segment map *)

Lemma build_segments_raises (stations : gmap string dict) (edges : list (string * string)) :
  Exists (fun e => stations !! e.1 = None \/ stations !! e.2 = None) edges ->
  forall m, exists e m',
    build_segments Env generate_segment_environment segment_haversine stations edges m
    = (Raise e, m').
Proof.
  induction 1 as [[u v] rest Hbad | [u v] rest _ IH]; intros m; cbn [build_segments].
  - assert (segments_of stations u v 100.0 = Raise KeyError) as ->; [| eauto].
    unfold segment_track, station. cbn [fst snd] in Hbad.
    destruct Hbad as [-> | Hv]; [reflexivity |].
    destruct (stations !! u); [| reflexivity]. by rewrite Hv.
  - destruct (segments_of stations u v 100.0); [apply IH | eauto].
Qed.

Lemma segmentable_returns (stations : gmap string dict) (u v : string) :
  segmentable stations (u, v) -> exists segs, segments_of stations u v 100.0 = Ok segs.
Proof.
  intros (A & B & lat1 & lon1 & lat2 & lon2 & Hu & Hv & Ha & Hb & Hc & Hd).
  cbn [fst snd] in Hu, Hv.
  apply (SegmenterMore.segment_track_returns _ _ _ _ _ _ _ _ _ _ _ _ Hu Hv Ha Hb Hc Hd).
  lra.
Qed.

Lemma build_segments_returns (stations : gmap string dict) (edges : list (string * string)) :
  Forall (segmentable stations) edges ->
  forall m, exists m',
    build_segments Env generate_segment_environment segment_haversine stations edges m
    = (Ok tt, m') /\
    forall k, m' !! k =
      match list_find (fun e => edge_key e = k) (reverse edges) with
      | Some (_, e) => match segments_of stations e.1 e.2 100.0 with
                       | Ok segs => Some segs
                       | Raise _ => None
                       end
      | None => m !! k
      end.
Proof.
  induction 1 as [| [u v] rest Hseg _ IH]; intros m; cbn [build_segments].
  - exists m. split; [reflexivity |]. intros k. reflexivity.
  - destruct (segmentable_returns _ _ _ Hseg) as [segs Hs]. rewrite Hs.
    destruct (IH (<[(u +:+ "-" +:+ v)%string := segs]> m)) as (m' & -> & Hm').
    exists m'. split; [reflexivity |]. intros k. rewrite Hm', reverse_cons.
    destruct (list_find _ (reverse rest)) as [[i e] |] eqn:Ef.
    + erewrite list_find_app_l by exact Ef. reflexivity.
    + change (u +:+ "-" +:+ v)%string with (edge_key (u, v)).
      destruct (decide (edge_key (u, v) = k)) as [Hk | Hk].
      * rewrite (list_find_app_r _ _ _ Ef). cbn [list_find]. rewrite decide_True by done.
        cbn. rewrite Hs. subst k. by rewrite lookup_insert_eq.
      * rewrite (list_find_app_r _ _ _ Ef). cbn [list_find]. rewrite decide_False by done.
        cbn. by rewrite lookup_insert_ne.
Qed.

Lemma rbind_inv {A B : Type} (m : result A) (k : A -> result B) (b : B) :
  rbind m k = Ok b -> exists a, m = Ok a /\ k a = Ok b.
Proof. destruct m as [a |]; [eauto | discriminate]. Qed.

(** With two trains or more the arbitration never answers NO_ACTION. *)
Lemma two_trains_some_action (A B : dict) (rest : list dict) (d : decision) :
  decide_collision_action (A :: B :: rest) = Ok d -> d <> NO_ACTION.
Proof.
  unfold decide_collision_action. intros H.
  repeat (apply rbind_inv in H as (? & _ & H)).
  cbv zeta in H. destruct (Rle_dec _ _); [by injection H as <- |].
  repeat first
    [ apply rbind_inv in H as (? & _ & H)
    | match type of H with (if ?b then _ else _) = _ => destruct b end ];
  by injection H as <-.
Qed.

Lemma respond_spec (trains : list dict) :
  ((length trains < 2)%nat ->
   respond trains = Ok {| decision_of := NO_ACTION;
                          error := Some "Not enough trains"%string;
                          stop_train_id := None; let_pass_id := None |}) /\
  ((2 <= length trains)%nat ->
   (forall e, decide_collision_action trains = Raise e -> respond trains = Raise e) /\
   (forall d, decide_collision_action trains = Ok d ->
      d <> NO_ACTION /\
      exists r, respond trains = Ok r /\ decision_of r = d /\ error r = None /\
                match d with
                | STOP_ONE stop pass _ =>
                    stop_train_id r = Some stop /\ let_pass_id r = Some pass
                | _ => stop_train_id r = None /\ let_pass_id r = None
                end)).
Proof.
  destruct trains as [| A [| B rest]]; cbn [length]; split; try lia; try reflexivity.
  intros _. unfold respond. split.
  - by intros e ->.
  - intros d Hd. split; [exact (two_trains_some_action _ _ _ _ Hd) |].
    rewrite Hd. cbn [rbind]. destruct d; eexists; repeat split.
Qed.

(** X23. The trains are looked at only after every edge has been
    segmented. An edge that names a station missing from the request
    makes the endpoint raise, whatever the trains are. When every edge
    joins two stations with numeric coordinates: fewer than two trains
    give NO_ACTION with the error "Not enough trains"; otherwise an
    exception of [decide_collision_action] is passed on, and its decision
    is returned, never NO_ACTION, with the stopped and the passing id
    copied into [stop_train_id] and [let_pass_id] exactly for STOP_ONE. *)
Theorem endpoint_segments_before_trains (trains : list dict)
    (stations : gmap string dict) (edges : list (string * string)) (c : caches SEnv Env) :
  let answer := (endpoint trains stations edges c).1 in
  (Exists (fun e => stations !! e.1 = None \/ stations !! e.2 = None) edges ->
   exists e, answer = Raise e) /\
  (Forall (segmentable stations) edges ->
   ((length trains < 2)%nat ->
    answer = Ok {| decision_of := NO_ACTION; error := Some "Not enough trains"%string;
                   stop_train_id := None; let_pass_id := None |}) /\
   ((2 <= length trains)%nat ->
    (forall e, decide_collision_action trains = Raise e -> answer = Raise e) /\
    (forall d, decide_collision_action trains = Ok d ->
       d <> NO_ACTION /\
       exists r, answer = Ok r /\ decision_of r = d /\ error r = None /\
                 match d with
                 | STOP_ONE stop pass _ =>
                     stop_train_id r = Some stop /\ let_pass_id r = Some pass
                 | _ => stop_train_id r = None /\ let_pass_id r = None
                 end))).
Proof.
  intros answer. subst answer. unfold decide_endpoint. split.
  - intros Hbad. destruct (build_segments_raises _ _ Hbad ∅) as (e & m' & ->).
    cbn. eauto.
  - intros Hok. destruct (build_segments_returns _ _ Hok ∅) as (m' & -> & _).
    cbn [fst]. apply respond_spec.
Qed.

(** X24. After a request whose edges all join two stations with numeric
    coordinates, the segment map holds exactly the keys ["u-v"] of the
    request's edges: entries of earlier requests are gone, and each entry
    is the segmentation, in 100 m pieces, of an edge of the request with
    that key. *)
Theorem segment_map_rebuilt (trains : list dict)
    (stations : gmap string dict) (edges : list (string * string)) (c : caches SEnv Env) :
  Forall (segmentable stations) edges ->
  let after := segment_env_map _ _ (endpoint trains stations edges c).2 in
  (forall k, is_Some (after !! k) <-> k ∈ map edge_key edges) /\
  (forall k segs,
     after !! k = Some segs ->
     exists u v, (u, v) ∈ edges /\ edge_key (u, v) = k /\
                 segments_of stations u v 100.0 = Ok segs).
Proof.
  intros Hok after. subst after. unfold decide_endpoint.
  destruct (build_segments_returns _ _ Hok ∅) as (m' & -> & Hm').
  cbn [snd segment_env_map]. split.
  - intros k. rewrite Hm'.
    destruct (list_find _ (reverse edges)) as [[i [u v]] |] eqn:Ef.
    + apply list_find_Some in Ef as (Hi & Hk & _).
      apply list_elem_of_lookup_2 in Hi. rewrite elem_of_reverse in Hi.
      rewrite Forall_forall in Hok.
      destruct (segmentable_returns _ _ _ (Hok _ Hi)) as [segs Hs].
      cbn [fst snd]. rewrite Hs. split; [intros _ | eauto].
      change (map ?f ?l) with (f <$> l). apply list_elem_of_fmap. eauto.
    + rewrite lookup_empty. split; [intros [? ?]; discriminate |].
      change (map ?f ?l) with (f <$> l). intros ([u v] & -> & Hi)%list_elem_of_fmap.
      apply list_find_None in Ef. rewrite Forall_forall in Ef.
      exfalso. apply (Ef (u, v)); [by apply elem_of_reverse | reflexivity].
  - intros k segs. rewrite Hm'.
    destruct (list_find _ (reverse edges)) as [[i [u' v']] |] eqn:Ef.
    + apply list_find_Some in Ef as (Hi & Hk & _).
      apply list_elem_of_lookup_2 in Hi. rewrite elem_of_reverse in Hi. cbn [fst snd].
      destruct (segments_of stations u' v' 100.0) as [s | ] eqn:Hs; [| discriminate].
      intros [= <-]. exists u', v'. auto.
    + rewrite lookup_empty. discriminate.
Qed.

End Endpoint.

Lemma test_edge_segmentable :
  Forall (segmentable Scenarios.two_stations) [("DEL", "NDLS")].
Proof.
  constructor; [| constructor].
  exists (Scenarios.station_at 0 0),
         (Scenarios.station_at (Scenarios.north_of_origin 250) 0),
         0, 0, (Scenarios.north_of_origin 250), 0.
  repeat split; reflexivity.
Defined.

Lemma station_cache_only_grows_witness :
  let c := {| station_env := {[ "DEL" := "kept" ]}; segment_env_map := ∅ |} in
  let after :=
    station_env _ _
      (decide_endpoint string unit (fun n => n) (fun _ _ => tt) Geodesy.haversine
                       [] Scenarios.two_stations [("DEL", "NDLS")] c).2 in
  after !! "DEL" = Some "kept" /\ after !! "NDLS" = Some "NDLS" /\ after !! "AGC" = None.
Proof.
  intros c after. subst after. split; [| split].
  - pose proof (station_cache_only_grows (fun n => n) (fun _ _ => tt) Geodesy.haversine
                  [] Scenarios.two_stations [("DEL", "NDLS")] c "DEL") as H.
    cbv zeta in H. destruct H as (H & _ & _). apply H. reflexivity.
  - pose proof (station_cache_only_grows (fun n => n) (fun _ _ => tt) Geodesy.haversine
                  [] Scenarios.two_stations [("DEL", "NDLS")] c "NDLS") as H.
    cbv zeta in H. destruct H as (_ & H & _). apply H; [reflexivity |].
    eexists. reflexivity.
  - pose proof (station_cache_only_grows (fun n => n) (fun _ _ => tt) Geodesy.haversine
                  [] Scenarios.two_stations [("DEL", "NDLS")] c "AGC") as H.
    cbv zeta in H. destruct H as (_ & _ & H). apply H; reflexivity.
Defined.

Lemma endpoint_segments_before_trains_witness :
  let c := {| station_env := (∅ : gmap string string); segment_env_map := ∅ |} in
  (exists e,
     (decide_endpoint string unit (fun n => n) (fun _ _ => tt) Geodesy.haversine
                      [Scenarios.train_at "T1" 0 0 2 100;
                       Scenarios.train_at "T2" (Scenarios.north_of_origin 1000) 0 1 80]
                      Scenarios.two_stations [("DEL", "AGC")] c).1 = Raise e) /\
  (decide_endpoint string unit (fun n => n) (fun _ _ => tt) Geodesy.haversine
                   [Scenarios.train_at "T1" 0 0 2 100]
                   Scenarios.two_stations [("DEL", "NDLS")] c).1
  = Ok {| decision_of := NO_ACTION; error := Some "Not enough trains"%string;
          stop_train_id := None; let_pass_id := None |}.
Proof.
  intros c. split.
  - pose proof (endpoint_segments_before_trains (fun n => n) (fun _ _ => tt)
                  Geodesy.haversine
                  [Scenarios.train_at "T1" 0 0 2 100;
                   Scenarios.train_at "T2" (Scenarios.north_of_origin 1000) 0 1 80]
                  Scenarios.two_stations [("DEL", "AGC")] c) as H.
    cbv zeta in H. destruct H as [H _]. apply H.
    apply Exists_cons_hd. right. reflexivity.
  - pose proof (endpoint_segments_before_trains (fun n => n) (fun _ _ => tt)
                  Geodesy.haversine [Scenarios.train_at "T1" 0 0 2 100]
                  Scenarios.two_stations [("DEL", "NDLS")] c) as H.
    cbv zeta in H. destruct H as [_ H].
    destruct (H test_edge_segmentable) as [Hfew _]. apply Hfew. simpl. lia.
Defined.

Lemma segment_map_rebuilt_witness :
  let c := {| station_env := (∅ : gmap string string);
              segment_env_map := {[ "GZB-AGC" := [] ]} |} in
  let after :=
    segment_env_map _ _
      (decide_endpoint string unit (fun n => n) (fun _ _ => tt) Geodesy.haversine
                       [] Scenarios.two_stations [("DEL", "NDLS")] c).2 in
  is_Some (after !! "DEL-NDLS") /\ after !! "GZB-AGC" = None.
Proof.
  intros c after. subst after.
  pose proof (segment_map_rebuilt (fun n => n) (fun _ _ => tt) Geodesy.haversine
                [] Scenarios.two_stations [("DEL", "NDLS")] c test_edge_segmentable) as H.
  cbv zeta in H. destruct H as [Hkeys _]. split.
  - apply Hkeys. left.
  - apply eq_None_not_Some. intros Hsome. apply Hkeys in Hsome.
    apply list_elem_of_singleton in Hsome. discriminate.
Defined.

End EndpointProps.
